(** * A shallow embedding of src/annotationService.ts

    The TypeScript class [AnnotationService] is a thin client of a remote
    annotation server.  Its state is made of three private fields
    ([#serverEndpoint], [#currentError], [#currentUser]); its environment is
    the browser's cookie jar (through js-cookie), the clock and [fetch].

    Modelling conventions.
    - A JavaScript string is a [string]; each [ascii] stands for one UTF-16
      code unit, so the strings covered are those whose code units lie in
      0..255.
    - Values that come back from [response.json()] are untyped at run time,
      they are modelled by [jsval].  Numbers are integers.
    - An [async] method is a computation in the monad [M]: it reads the
      environment of the call (the server's reply, the clock), threads the
      state (service fields, cookie jar, log of [fetch] calls) and either
      resolves to a value or rejects.  Calls are run one after the other:
      interleavings of concurrent calls and the ten second abort timer are
      outside the model. *)

From Stdlib Require Import ZArith Ascii String List Bool Lia.
From Stdlib Require Import Numbers.DecimalString.
From stdpp Require Import base option strings gmap.

Local Open Scope string_scope.
Local Open Scope Z_scope.

#[local] Set Warnings "-register-all".

(** ** JavaScript strings *)

Module JsString.

(** [s.length] *)
Definition len (s : string) : Z := Z.of_nat (String.length s).

(** [s.slice(start, end)]: negative indices count from the end, both are
    clamped to [0 .. s.length]; an omitted [end] is [s.length]. *)
Definition slice (s : string) (start : Z) (end_ : option Z) : string :=
  let n := len s in
  let from := if start <? 0 then Z.max (n + start) 0 else Z.min start n in
  let e := default n end_ in
  let to := if e <? 0 then Z.max (n + e) 0 else Z.min e n in
  String.substring (Z.to_nat from) (Z.to_nat (Z.max (to - from) 0)) s.

(** [parts.join(sep)] *)
Fixpoint join (sep : string) (parts : list string) : string :=
  match parts with
  | [] => EmptyString
  | [p] => p
  | p :: rest => p +:+ sep +:+ join sep rest
  end.

(** Decimal rendering of an integer, as a template literal does. *)
Definition of_Z (n : Z) : string := NilZero.string_of_int (Z.to_int n).

Definition hex_digit (upper : bool) (d : N) : ascii :=
  if (d <? 10)%N then ascii_of_N (48 + d)
  else ascii_of_N ((if upper then 55 else 87) + d).

(** Two hexadecimal digits of a byte. *)
Definition hex2 (upper : bool) (b : N) : string :=
  String (hex_digit upper (b / 16)) (String (hex_digit upper (b mod 16)) EmptyString).

End JsString.

(** ** Run-time values *)

Inductive jsval : Type :=
| JUndefined
| JNull
| JBool (b : bool)
| JNum (n : Z)
| JStr (s : string)
| JArr (items : list jsval)
| JObj (props : list (string * jsval)).

(** Own properties of an object, in [Object.entries] order. *)
Abbreviation entries := (list (string * jsval)).

Fixpoint lookup_prop (k : string) (ps : entries) : option jsval :=
  match ps with
  | [] => None
  | (k', v) :: rest => if String.eqb k k' then Some v else lookup_prop k rest
  end.

(** [obj[k] = v]: an existing key keeps its place, a new one goes last. *)
Fixpoint set_prop (k : string) (v : jsval) (ps : entries) : entries :=
  match ps with
  | [] => [(k, v)]
  | (k', v') :: rest =>
      if String.eqb k k' then (k, v) :: rest else (k', v') :: set_prop k v rest
  end.

(** [Object.assign(target, source)] *)
Definition Object_assign (target source : entries) : entries :=
  fold_left (fun acc kv => set_prop (fst kv) (snd kv) acc) source target.

(** Truthiness, as tested by [&&] and [||]. *)
Definition truthy (v : jsval) : bool :=
  match v with
  | JUndefined | JNull => false
  | JBool b => b
  | JNum n => negb (n =? 0)
  | JStr s => negb (String.eqb s EmptyString)
  | JArr _ | JObj _ => true
  end.

(** [{error: msg}] *)
Definition ErrorResult (msg : string) : jsval := JObj [("error", JStr msg)].

(** ** Serialisation *)

Module Json.

(** The double quote character. *)
Definition dquote : string := String (ascii_of_N 34) EmptyString.

(** Characters of a JSON string literal. *)
Definition quote_char (c : ascii) : string :=
  let n := N_of_ascii c in
  if (n =? 34)%N then "\" +:+ dquote
  else if (n =? 92)%N then "\\"
  else if (n =? 8)%N then "\b"
  else if (n =? 9)%N then "\t"
  else if (n =? 10)%N then "\n"
  else if (n =? 12)%N then "\f"
  else if (n =? 13)%N then "\r"
  else if (n <? 32)%N then "\u00" +:+ JsString.hex2 false n
  else String c EmptyString.

Fixpoint quote_chars (s : string) : string :=
  match s with
  | EmptyString => EmptyString
  | String c rest => quote_char c +:+ quote_chars rest
  end.

Definition quote (s : string) : string := dquote +:+ quote_chars s +:+ dquote.

(** [JSON.stringify(v)]; [None] is the [undefined] it returns for
    [undefined].  Inside an array [undefined] is written [null], inside an
    object the property is left out. *)
Fixpoint stringify (v : jsval) : option string :=
  match v with
  | JUndefined => None
  | JNull => Some "null"
  | JBool b => Some (if b then "true" else "false")
  | JNum n => Some (JsString.of_Z n)
  | JStr s => Some (quote s)
  | JArr items =>
      Some ("[" +:+ JsString.join ","
              (map (fun x => default "null" (stringify x)) items) +:+ "]")
  | JObj props =>
      Some ("{" +:+ JsString.join ","
              (flat_map (fun kv =>
                           match stringify (snd kv) with
                           | Some s => [quote (fst kv) +:+ ":" +:+ s]
                           | None => []
                           end) props) +:+ "}")
  end.

End Json.

(** ** Operators of the language *)

Inductive Exn : Type :=
| TypeError          (* [in] applied to a primitive, property of [null] *)
| NetworkError       (* [fetch] rejected: no response, or request aborted *)
| SyntaxError.       (* [response.json()] rejected: body is not JSON *)

(** [k in v].  An object has [k] when it is one of its keys.  An array has
    its indices, [length] and what it inherits; none of these is a key the
    service tests for, so an array answers [false].  On a primitive the
    operator throws. *)
Definition js_in (k : string) (v : jsval) : Exn + bool :=
  match v with
  | JObj props => inr (bool_decide (is_Some (lookup_prop k props)))
  | JArr _ => inr false
  | _ => inl TypeError
  end.

(** [v.k] for a key [k] that is not built in: [undefined] when [v] has no
    such own property; throws on [null] and [undefined]. *)
Definition js_get (v : jsval) (k : string) : Exn + jsval :=
  match v with
  | JObj props => inr (default JUndefined (lookup_prop k props))
  | JUndefined | JNull => inl TypeError
  | _ => inr JUndefined
  end.

(** [String(v)] *)
Fixpoint ToString (v : jsval) : string :=
  match v with
  | JUndefined => "undefined"
  | JNull => "null"
  | JBool b => if b then "true" else "false"
  | JNum n => JsString.of_Z n
  | JStr s => s
  | JArr items =>
      JsString.join ","
        (map (fun x => match x with
                       | JUndefined | JNull => EmptyString
                       | _ => ToString x
                       end) items)
  | JObj _ => "[object Object]"
  end.

Module Uri.

(** Characters [encodeURIComponent] leaves alone:
    letters, digits and [- _ . ! ~ * ' ( )]. *)
Definition unreserved (c : ascii) : bool :=
  let n := N_of_ascii c in
  ((65 <=? n) && (n <=? 90) || (97 <=? n) && (n <=? 122)
   || (48 <=? n) && (n <=? 57)
   || existsb (N.eqb n) [45; 95; 46; 33; 126; 42; 39; 40; 41])%N.

(** One code unit: kept, or the bytes of its UTF-8 form as [%XX]. *)
Definition encode_unit (c : ascii) : string :=
  if unreserved c then String c EmptyString
  else
    let n := N_of_ascii c in
    if (n <? 128)%N then "%" +:+ JsString.hex2 true n
    else "%" +:+ JsString.hex2 true (192 + n / 64)
         +:+ "%" +:+ JsString.hex2 true (128 + n mod 64).

(** [encodeURIComponent(s)] *)
Fixpoint encodeURIComponent (s : string) : string :=
  match s with
  | EmptyString => EmptyString
  | String c rest => encode_unit c +:+ encodeURIComponent rest
  end.

End Uri.

(** ** Data of the interface *)

(** A [URL] object is carried as its [href], which is also what
    [JSON.stringify] writes for it. *)
Abbreviation URL := string (only parsing).

Record MapFeature := {
  id : string;
  geometry_type : string;
  geometry_coordinates : list jsval;
  properties : entries
}.

(** The object passed as [userAnnotation]: its own enumerable properties,
    in [Object.entries] order.  The interface [UserAnnotation] is open: it
    asks for [resource], [item], [evidence] and [comment] and allows a
    [feature]; every object that has them is accepted, an [Annotation] read
    back from the server, which also has [creator], [created] and [id],
    included.  The service never looks at the properties, it copies them. *)
Definition UserAnnotation : Type := entries.


Definition MapFeature_value (f : MapFeature) : jsval :=
  JObj [("id", JStr (id f));
        ("geometry", JObj [("type", JStr (geometry_type f));
                           ("coordinates", JArr (geometry_coordinates f))]);
        ("properties", JObj (properties f))].

(** An object with the properties of the interface and no other, in the
    order of the interface; the optional [feature] is there only when
    given. *)
Definition UserAnnotation_of (resource item : string) (evidence : list URL)
    (comment : string) (feature : option MapFeature) : UserAnnotation :=
  ([("resource", JStr resource);
    ("item", JStr item);
    ("evidence", JArr (map JStr evidence));
    ("comment", JStr comment)]
   ++ (match feature with
       | Some f => [("feature", MapFeature_value f)]
       | None => []
       end))%list.

(** ** State and environment *)

Record AnnotationService := {
  serverEndpoint : string;
  currentError : jsval;
  currentUser : jsval
}.

Record CookieAttributes := {
  secure : bool;
  expires : option Z      (* days from now *)
}.

Record Cookie := {
  cookie_value : string;
  cookie_attributes : CookieAttributes
}.

Inductive Method := GET | POST.

(** What [fetch(url, options)] is called with (the abort signal left out). *)
Record Request := {
  url : string;
  method : Method;
  headers : list (string * string);
  body : option string
}.

(** A response: [json] is [None] when the body does not parse. *)
Record Response := {
  status : Z;
  statusText : string;
  json : option jsval
}.

Definition ok (r : Response) : bool := (200 <=? status r) && (status r <=? 299).

(** The environment of one call: how the server answers ([None]: [fetch]
    rejects) and what [(new Date()).toISOString()] yields. *)
Record Env := {
  fetch : Request -> option Response;
  toISOString_now : string
}.

Record State := {
  this : AnnotationService;
  jar : gmap string Cookie;
  fetched : list Request          (* calls of [fetch], oldest first *)
}.

(** ** The monad of asynchronous methods *)

Inductive Outcome (A : Type) : Type :=
| Resolved (a : A)
| Rejected (e : Exn).

Arguments Resolved {A} a.
Arguments Rejected {A} e.

Definition M (A : Type) : Type := Env -> State -> Outcome A * State.

Definition ret {A} (a : A) : M A := fun _ s => (Resolved a, s).

Definition bind {A B} (m : M A) (k : A -> M B) : M B :=
  fun env s =>
    match m env s with
    | (Resolved a, s') => k a env s'
    | (Rejected e, s') => (Rejected e, s')
    end.

Definition throw {A} (e : Exn) : M A := fun _ s => (Rejected e, s).

Definition lift {A} (r : Exn + A) : M A :=
  match r with
  | inl e => throw e
  | inr a => ret a
  end.

Declare Scope js_scope.
Delimit Scope js_scope with js.
Notation "x <- c ;; k" := (bind c (fun x => k))
  (at level 100, c at next level, k at level 200, right associativity) : js_scope.
Notation "c ;; k" := (bind c (fun _ => k))
  (at level 100, k at level 200, right associativity) : js_scope.

(** State updates. *)
Definition with_currentError (v : jsval) (s : State) : State :=
  {| this := {| serverEndpoint := serverEndpoint (this s);
                currentError := v;
                currentUser := currentUser (this s) |};
     jar := jar s; fetched := fetched s |}.

Definition with_currentUser (v : jsval) (s : State) : State :=
  {| this := {| serverEndpoint := serverEndpoint (this s);
                currentError := currentError (this s);
                currentUser := v |};
     jar := jar s; fetched := fetched s |}.

Definition with_jar (j : gmap string Cookie) (s : State) : State :=
  {| this := this s; jar := j; fetched := fetched s |}.

Definition logged (r : Request) (s : State) : State :=
  {| this := this s; jar := jar s; fetched := (fetched s ++ [r])%list |}.

Definition get_currentError : M jsval :=
  fun _ s => (Resolved (currentError (this s)), s).

Definition get_currentUser : M jsval :=
  fun _ s => (Resolved (currentUser (this s)), s).

Definition get_serverEndpoint : M string :=
  fun _ s => (Resolved (serverEndpoint (this s)), s).

(** [this.#currentError = v] *)
Definition set_currentError (v : jsval) : M unit :=
  fun _ s => (Resolved tt, with_currentError v s).

(** [this.#currentUser = v] *)
Definition set_currentUser (v : jsval) : M unit :=
  fun _ s => (Resolved tt, with_currentUser v s).

(** [(new Date()).toISOString()] *)
Definition Date_now_toISOString : M string :=
  fun env s => (Resolved (toISOString_now env), s).

(** [await fetch(url, options)]: the call is logged, then answered. *)
Definition await_fetch (r : Request) : M Response :=
  fun env s =>
    match fetch env r with
    | Some resp => (Resolved resp, logged r s)
    | None => (Rejected NetworkError, logged r s)
    end.

(** [await response.json()] *)
Definition await_json (r : Response) : M jsval :=
  match json r with
  | Some v => ret v
  | None => throw SyntaxError
  end.

(** *** js-cookie *)

Module Cookies.

(** [Cookies.get(name)]: the value, or [undefined]. *)
Definition get (name : string) : M (option string) :=
  fun _ s => (Resolved (cookie_value <$> jar s !! name), s).

(** [Cookies.set(name, value, attributes)]: the value is written as a
    string. *)
Definition set (name : string) (value : jsval) (attrs : CookieAttributes)
  : M unit :=
  fun _ s =>
    (Resolved tt,
     with_jar (<[name := {| cookie_value := ToString value;
                            cookie_attributes := attrs |}]> (jar s)) s).

(** [Cookies.remove(name)] *)
Definition remove (name : string) : M unit :=
  fun _ s => (Resolved tt, with_jar (delete name (jar s)) s).

End Cookies.

(** [x || ''] for [x] a string or [undefined] *)
Definition or_empty (x : option string) : string :=
  match x with
  | Some v => if String.eqb v EmptyString then EmptyString else v
  | None => EmptyString
  end.

(** ** The service *)

(** [new AnnotationService(serverEndpoint)] *)
Definition constructor (serverEndpoint : string) : AnnotationService :=
  {| serverEndpoint :=
       if String.eqb (JsString.slice serverEndpoint (-1) None) "/"
       then JsString.slice serverEndpoint 0 (Some (-1))   (* strip any trailing slash *)
       else serverEndpoint;
     currentError := JNull;
     currentUser := JNull |}.

(** One pair of the query string: [`${key}=${encodeURIComponent(JSON.stringify(value))}`] *)
Definition query_pair (kv : string * jsval) : string :=
  fst kv +:+ "="
  +:+ Uri.encodeURIComponent (default "undefined" (Json.stringify (snd kv))).

Definition GET_headers : list (string * string) :=
  [("Accept", "application/json; charset=utf-8");
   ("Cache-Control", "no-store")].

Definition POST_headers : list (string * string) :=
  [("Accept", "application/json; charset=utf-8");
   ("Content-Type", "application/json; charset=utf-8");
   ("Cache-Control", "no-store")].

(** What [#request] passes to [fetch]. *)
Definition build_request (base endpoint : string) (method : Method)
    (parameters : entries) (userApiKey sessionKey : string) : Request :=
  let url := base +:+ "/" +:+ endpoint in
  match method with
  | GET =>
      let params :=
        (map query_pair parameters
         ++ ["key=" +:+ Uri.encodeURIComponent userApiKey;
             "session=" +:+ Uri.encodeURIComponent sessionKey])%list in
      {| url := url +:+ "?" +:+ JsString.join "&" params;
         method := GET;
         headers := GET_headers;
         body := None |}
  | POST =>
      let params :=
        Object_assign [("key", JStr userApiKey); ("session", JStr sessionKey)]
                      parameters in
      {| url := url;
         method := POST;
         headers := POST_headers;
         body := Json.stringify (JObj params) |}
  end.

(** [#request(endpoint, method, parameters)] *)
Definition request (endpoint : string) (method : Method) (parameters : entries)
  : M jsval :=
  (base <- get_serverEndpoint ;;
   user_token <- Cookies.get "user-token" ;;
   let userApiKey := or_empty user_token in
   annotation_key <- Cookies.get "annotation-key" ;;
   let sessionKey := or_empty annotation_key in
   response <- await_fetch
                 (build_request base endpoint method parameters
                                userApiKey sessionKey) ;;
   if ok response then
     await_json response
   else
     set_currentError
       (ErrorResult (JsString.of_Z (status response) +:+ " "
                     +:+ statusText response)) ;;
     get_currentError)%js.

Definition authenticate : M jsval :=
  (set_currentError JNull ;;
   set_currentUser JNull ;;
   userData <- request "authenticate" GET [] ;;
   has_error <- lift (js_in "error" userData) ;;
   if negb has_error then
     session <- lift (js_get userData "session") ;;
     Cookies.set "annotation-key" session
                 {| secure := true; expires := Some 1 |} ;;
     data <- lift (js_get userData "data") ;;
     set_currentUser data ;;
     get_currentUser
   else
     Cookies.remove "annotation-key" ;;
     get_currentError)%js.

Definition unauthenticate : M jsval :=
  (set_currentError JNull ;;
   set_currentUser JNull ;;
   resultData <- request "unauthenticate" GET [] ;;
   has_success <- lift (js_in "success" resultData) ;;
   if has_success then ret resultData
   else get_currentError)%js.

(** The shape shared by the four read methods. *)
Definition read (endpoint : string) (parameters : entries) : M jsval :=
  (result <- request endpoint GET parameters ;;
   has_error <- lift (js_in "error" result) ;;
   if negb has_error then ret result
   else get_currentError)%js.

Definition annotatedItemIds (resourceId : string) : M jsval :=
  read "items/" [("resource", JStr resourceId)].

Definition drawnFeatures (resourceId : string) : M jsval :=
  read "features/" [("resource", JStr resourceId)].

Definition itemAnnotations (resourceId ItemId : string) : M jsval :=
  read "annotations/" [("resource", JStr resourceId); ("item", JStr ItemId)].

Definition annotation (annotationId : URL) : M jsval :=
  read "annotation/" [("annotation", JStr annotationId)].

(** [this.#currentUser && this.#currentUser.canUpdate] *)
Definition user_can_update : M jsval :=
  (user <- get_currentUser ;;
   if truthy user then lift (js_get user "canUpdate") else ret user)%js.

(** The [AnnotationRequest] built by [addAnnotation]. *)
Definition annotationRequest (creator : jsval) (created : string)
    (userAnnotation : UserAnnotation) : entries :=
  Object_assign [("creator", creator); ("created", JStr created)]
                userAnnotation.

Definition addAnnotation (userAnnotation : UserAnnotation) : M jsval :=
  (allowed <- user_can_update ;;
   if truthy allowed then
     creator <- get_currentUser ;;
     created <- Date_now_toISOString ;;
     annotationResponse <-
       request "annotation/" POST
               [("data", JObj (annotationRequest creator created userAnnotation))] ;;
     has_error <- lift (js_in "error" annotationResponse) ;;
     if negb has_error then ret annotationResponse
     else
       set_currentError annotationResponse ;;
       get_currentError
   else
     set_currentError (ErrorResult "user cannot add annotation") ;;
     get_currentError)%js.

(** ** Calls and runs *)

Inductive Call : Type :=
| Authenticate
| Unauthenticate
| AnnotatedItemIds (resourceId : string)
| DrawnFeatures (resourceId : string)
| ItemAnnotations (resourceId ItemId : string)
| Annotation (annotationId : URL)
| AddAnnotation (userAnnotation : UserAnnotation).

Definition call (c : Call) : M jsval :=
  match c with
  | Authenticate => authenticate
  | Unauthenticate => unauthenticate
  | AnnotatedItemIds r => annotatedItemIds r
  | DrawnFeatures r => drawnFeatures r
  | ItemAnnotations r i => itemAnnotations r i
  | Annotation a => annotation a
  | AddAnnotation u => addAnnotation u
  end.

(** The state after a call. *)
Definition after (c : Call) (env : Env) (s : State) : State :=
  snd (call c env s).

(** A run: calls made one after the other, each in its own environment. *)
Definition run (cs : list (Call * Env)) (s : State) : State :=
  fold_left (fun s ce => after (fst ce) (snd ce) s) cs s.

(** A page that has just built the service. *)
Definition fresh (serverEndpoint : string) (cookies : gmap string Cookie) : State :=
  {| this := constructor serverEndpoint; jar := cookies; fetched := [] |}.

(** A server with a fixed answer. *)
Definition replies (st : Z) (text : string) (b : option jsval) (now : string) : Env :=
  {| fetch := fun _ => Some {| status := st; statusText := text; json := b |};
     toISOString_now := now |}.


(** ** Vocabulary of the statements *)

(** The two credentials [#request] reads from the cookie jar. *)
Definition userApiKey_of (s : State) : string :=
  or_empty (cookie_value <$> jar s !! "user-token").

Definition sessionKey_of (s : State) : string :=
  or_empty (cookie_value <$> jar s !! "annotation-key").

(** The request [#request] sends from state [s]. *)
Definition request_of (s : State) (endpoint : string) (method : Method)
    (parameters : entries) : Request :=
  build_request (serverEndpoint (this s)) endpoint method parameters
                (userApiKey_of s) (sessionKey_of s).

(** The error made from a response that is not ok. *)
Definition http_error (r : Response) : jsval :=
  ErrorResult (JsString.of_Z (status r) +:+ " " +:+ statusText r).

(** The request a call sends, when it sends one. *)
Definition sent (c : Call) (env : Env) (s : State) : Request :=
  match c with
  | Authenticate => request_of s "authenticate" GET []
  | Unauthenticate => request_of s "unauthenticate" GET []
  | AnnotatedItemIds r => request_of s "items/" GET [("resource", JStr r)]
  | DrawnFeatures r => request_of s "features/" GET [("resource", JStr r)]
  | ItemAnnotations r i =>
      request_of s "annotations/" GET [("resource", JStr r); ("item", JStr i)]
  | Annotation a => request_of s "annotation/" GET [("annotation", JStr a)]
  | AddAnnotation u =>
      request_of s "annotation/" POST
        [("data", JObj (annotationRequest (currentUser (this s))
                                          (toISOString_now env) u))]
  end.

(** The four read methods. *)
Definition is_read (c : Call) : bool :=
  match c with
  | AnnotatedItemIds _ | DrawnFeatures _ | ItemAnnotations _ _ | Annotation _ => true
  | _ => false
  end.

(** The server's answer to a call is a 2xx response with JSON body [b]. *)
Definition answers_ok (env : Env) (r : Request) (b : jsval) : Prop :=
  exists resp, fetch env r = Some resp /\ ok resp = true /\ json resp = Some b.

(** The server's answer to a call is a response outside 2xx. *)
Definition answers_not_ok (env : Env) (r : Request) (resp : Response) : Prop :=
  fetch env r = Some resp /\ ok resp = false.

(** The cookie written by a successful [authenticate]. *)
Definition session_cookie (session : jsval) : Cookie :=
  {| cookie_value := ToString session;
     cookie_attributes := {| secure := true; expires := Some 1 |} |}.

(** *** Sample data *)

Definition A_user : jsval :=
  JObj [("name", JStr "A"); ("email", JStr "a@b"); ("orcid", JStr "0000");
        ("canUpdate", JBool true)].

Definition reader : jsval :=
  JObj [("name", JStr "B"); ("email", JStr "b@c"); ("orcid", JStr "0001");
        ("canUpdate", JBool false)].

Definition note : UserAnnotation :=
  UserAnnotation_of "r1" "i1" [] "note" None.


Definition login_ok : Env :=
  replies 200 "OK" (Some (JObj [("session", JStr "abc"); ("data", A_user)]))
          "2023-06-01T00:00:00.000Z".

Definition login_refused : Env :=
  replies 200 "OK" (Some (JObj [("error", JStr "unknown user")]))
          "2023-06-01T00:00:00.000Z".

Definition server_down : Env :=
  replies 500 "Internal Server Error" None "2023-06-01T00:00:00.000Z".

Definition offline : Env :=
  {| fetch := fun _ => None; toISOString_now := "2023-06-01T00:00:00.000Z" |}.

Definition logout_ok : Env :=
  replies 200 "OK" (Some (JObj [("success", JStr "logged out")]))
          "2023-06-01T00:00:00.000Z".

Definition items_ok : Env :=
  replies 200 "OK" (Some (JArr [JStr "i1"; JStr "i2"]))
          "2023-06-01T00:00:00.000Z".

Definition items_refused : Env :=
  replies 200 "OK" (Some (JObj [("error", JStr "unknown resource")]))
          "2023-06-01T00:00:00.000Z".

(** A state in which [u] is logged in. *)
Definition logged_in (u : jsval) : State :=
  with_currentUser u (fresh "https://x/y" ∅).

(** A state that holds a session cookie. *)
Definition with_session : State :=
  fresh "https://x/y" {[ "annotation-key" := session_cookie (JStr "abc") ]}.

(** A logged-in state in which an earlier call has left an error. *)
Definition stale_error : State :=
  with_currentError (ErrorResult "500 Internal Server Error") (logged_in A_user).


Definition failing_read_after_login : list (Call * Env) :=
  [(Authenticate, login_ok); (AnnotatedItemIds "r1", server_down)].

(** *** Further vocabulary *)

(** The value of [this.#currentUser && this.#currentUser.canUpdate]. *)
Definition guard_value (s : State) : jsval :=
  let user := currentUser (this s) in
  if truthy user then
    match js_get user "canUpdate" with
    | inr v => v
    | inl _ => JUndefined
    end
  else user.

(** Whether a call gets as far as [fetch]: all do, but an [addAnnotation]
    whose guard fails. *)
Definition sends (c : Call) (s : State) : bool :=
  match c with
  | AddAnnotation _ => truthy (guard_value s)
  | _ => true
  end.

(** Values on which [in] throws. *)
Definition is_primitive (v : jsval) : bool :=
  match v with
  | JObj _ | JArr _ => false
  | _ => true
  end.

(** The key a method looks for in the body of the answer. *)
Definition tested_key (c : Call) : string :=
  match c with
  | Unauthenticate => "success"
  | _ => "error"
  end.

(** The two methods that reset the slots before asking the server. *)
Definition resets (c : Call) : bool :=
  match c with
  | Authenticate | Unauthenticate => true
  | _ => false
  end.

(** *** Further sample data *)

Definition not_found : Response :=
  {| status := 404; statusText := "Not Found"; json := None |}.

Definition page_missing : Env :=
  {| fetch := fun _ => Some not_found;
     toISOString_now := "2023-06-01T00:00:00.000Z" |}.

Definition body_null : Env :=
  replies 200 "OK" (Some JNull) "2023-06-01T00:00:00.000Z".

Definition add_refused : Env :=
  replies 200 "OK" (Some (JObj [("error", JStr "unknown item")]))
          "2023-06-01T00:00:00.000Z".

Definition add_ok : Env :=
  replies 200 "OK" (Some (JObj [("id", JStr "https://x/y/a/1")]))
          "2023-06-01T00:00:00.000Z".

(** A state that holds the API key of the embedding page. *)
Definition with_token : State :=
  fresh "https://x/y/"
        {[ "user-token" := {| cookie_value := "k 1";
                              cookie_attributes := {| secure := false;
                                                      expires := None |} |} ]}.

(** A login followed by a write. *)
Definition login_then_add : list (Call * Env) :=
  [(Authenticate, login_ok); (AddAnnotation note, add_ok)].

(** *** Characters of a string *)

(** How many times a character occurs. *)
Fixpoint count_char (c : ascii) (s : string) : nat :=
  match s with
  | EmptyString => 0
  | String c' rest => (if Ascii.eqb c c' then 1 else 0) + count_char c rest
  end.

(** Every character passes a test. *)
Fixpoint string_forall (p : ascii -> bool) (s : string) : bool :=
  match s with
  | EmptyString => true
  | String c rest => p c && string_forall p rest
  end.

(** The characters [encodeURIComponent] can produce. *)
Definition encoded_char (c : ascii) : bool :=
  Uri.unreserved c || Ascii.eqb c "%".

(** The characters of a query string whose keys are plain: those of the
    encoded values, and the two separators. *)
Definition query_char (c : ascii) : bool :=
  encoded_char c || Ascii.eqb c "&" || Ascii.eqb c "=".

Definition two_parameters : entries :=
  [("resource", JStr "a&b=c#d"); ("item", JStr "x y")].

(** *** Reading back one unit *)

(** Decoders of one unit of [encodeURIComponent] and of one character of a
    JSON string, used to show that the two encodings lose nothing. *)
Module Decode.

Definition hexval (c : ascii) : N :=
  let n := N_of_ascii c in
  if (n <? 58)%N then (n - 48)%N
  else if (n <? 71)%N then (n - 55)%N
  else (n - 87)%N.

Definition byte_of (h1 h2 : ascii) : N := (16 * hexval h1 + hexval h2)%N.

(** An unreserved character, [%XX] for a byte below 128, or [%XX%XX] for
    the two bytes of a code unit from 128 to 255. *)
Definition uri_unit (s : string) : option (ascii * string) :=
  match s with
  | EmptyString => None
  | String c rest =>
      if Uri.unreserved c then Some (c, rest)
      else if Ascii.eqb c "%" then
        match rest with
        | String h1 (String h2 rest1) =>
            let b := byte_of h1 h2 in
            if (b <? 128)%N then Some (ascii_of_N b, rest1)
            else
              match rest1 with
              | String _ (String h3 (String h4 rest2)) =>
                  Some (ascii_of_N ((b - 192) * 64 + (byte_of h3 h4 - 128)),
                        rest2)
              | _ => None
              end
        | _ => None
        end
      else None
  end.

(** A character written as itself, or one of the escapes of
    [Json.quote_char]. *)
Definition json_unit (s : string) : option (ascii * string) :=
  match s with
  | EmptyString => None
  | String c rest =>
      let n := N_of_ascii c in
      if (n =? 92)%N then
        match rest with
        | EmptyString => None
        | String x rest1 =>
            let m := N_of_ascii x in
            if (m =? 34)%N || (m =? 92)%N then Some (x, rest1)
            else if (m =? 98)%N then Some (ascii_of_N 8, rest1)
            else if (m =? 116)%N then Some (ascii_of_N 9, rest1)
            else if (m =? 110)%N then Some (ascii_of_N 10, rest1)
            else if (m =? 102)%N then Some (ascii_of_N 12, rest1)
            else if (m =? 114)%N then Some (ascii_of_N 13, rest1)
            else
              match rest1 with
              | String _ (String _ (String h1 (String h2 rest2))) =>
                  Some (ascii_of_N (byte_of h1 h2), rest2)
              | _ => None
              end
        end
      else if (n =? 34)%N || (n <? 32)%N then None
      else Some (c, rest)
  end.

End Decode.

(** ** The first revision of the service (src/unnamed/part_000)

    There the page's cookies are read from [document.cookie] by the file's
    own [getCookie]; [#request] sends the API key only and stores nothing;
    [authenticate] stores the error itself and looks for a [token]. *)

Module Rev0.

(** [s.split(sep)] for a separator that is not empty: the pieces between
    the occurrences of [sep], found from left to right.  [split_from]
    returns the piece under way and the pieces after it; [skip] counts the
    characters of a separator still to be passed. *)
Fixpoint split_from (sep : string) (skip : nat) (s : string)
  : string * list string :=
  match s with
  | EmptyString => (EmptyString, [])
  | String c rest =>
      match skip with
      | S k => split_from sep k rest
      | O =>
          if String.prefix sep s then
            (EmptyString,
             let (p, ps) := split_from sep (String.length sep - 1) rest in
             p :: ps)
          else
            let (p, ps) := split_from sep 0 rest in
            (String c p, ps)
      end
  end.

(** [s.split(sep)]; an empty separator cuts between all code units. *)
Definition split (s sep : string) : list string :=
  if String.eqb sep EmptyString then
    map (fun c => String c EmptyString) (list_ascii_of_string s)
  else
    let (p, ps) := split_from sep 0 s in p :: ps.

(** [getCookie(name)], with [document.cookie] as an argument. *)
Definition getCookie (document_cookie name : string) : string :=
  let value := "; " +:+ document_cookie in
  let parts := split value ("; " +:+ name +:+ "=") in
  if Nat.eqb (length parts) 2 then
    or_empty (head (split (List.last parts EmptyString) ";"))
  else EmptyString.

(** What [document.cookie] reads for a list of cookies. *)
Definition cookie_text (cookies : list (string * string)) : string :=
  JsString.join "; " (map (fun nv => fst nv +:+ "=" +:+ snd nv) cookies).

(** Names have neither [;] nor [=], values have no [;]. *)
Definition well_formed (cookies : list (string * string)) : Prop :=
  Forall (fun nv => count_char ";" (fst nv) = 0%nat
                    /\ count_char "=" (fst nv) = 0%nat
                    /\ count_char ";" (snd nv) = 0%nat) cookies.

(** The request of the first revision: the API key is the only
    credential. *)
Definition build_request (base endpoint : string) (method : Method)
    (parameters : entries) (userApiKey : string) : Request :=
  let url := base +:+ "/" +:+ endpoint in
  match method with
  | GET =>
      let params :=
        (map query_pair parameters
         ++ ["key=" +:+ Uri.encodeURIComponent userApiKey])%list in
      {| url := url +:+ "?" +:+ JsString.join "&" params;
         method := GET;
         headers := GET_headers;
         body := None |}
  | POST =>
      let params := Object_assign [("key", JStr userApiKey)] parameters in
      {| url := url;
         method := POST;
         headers := POST_headers;
         body := Json.stringify (JObj params) |}
  end.

(** [#request]: an answer outside 2xx is turned into an error and
    returned, nothing is stored. *)
Definition request (document_cookie endpoint : string) (method : Method)
    (parameters : entries) : M jsval :=
  (base <- get_serverEndpoint ;;
   let userApiKey := getCookie document_cookie "user-token" in
   response <- await_fetch
                 (build_request base endpoint method parameters userApiKey) ;;
   if ok response then
     await_json response
   else
     ret (ErrorResult (JsString.of_Z (status response) +:+ " "
                       +:+ statusText response)))%js.

Definition authenticate (document_cookie : string) : M jsval :=
  (set_currentError JNull ;;
   set_currentUser JNull ;;
   userData <- request document_cookie "authenticate" GET [] ;;
   has_error <- lift (js_in "error" userData) ;;
   if has_error then
     set_currentError userData ;;
     get_currentError
   else
     has_token <- lift (js_in "token" userData) ;;
     if has_token then
       set_currentUser userData ;;
       get_currentUser
     else
       get_currentError)%js.

(** The request [authenticate] sends. *)
Definition sent_authenticate (document_cookie : string) (s : State) : Request :=
  build_request (serverEndpoint (this s)) "authenticate" GET []
                (getCookie document_cookie "user-token").

End Rev0.

(** No occurrence of [sep] in [a +:+ b] starts inside [a]. *)
Fixpoint occ_free (sep a b : string) : Prop :=
  match a with
  | EmptyString => True
  | String c a' =>
      String.prefix sep (String c (a' +:+ b)) = false /\ occ_free sep a' b
  end.

(** The text of the cookies, each one led by the separator. *)
Fixpoint led_text (cookies : list (string * string)) : string :=
  match cookies with
  | [] => EmptyString
  | (n, v) :: rest => ("; " +:+ n +:+ "=" +:+ v) +:+ led_text rest
  end.

Definition three_cookies : list (string * string) :=
  [("theme", "dark"); ("user-token", "k=1"); ("lang", "en")].


Definition token_answer : Env :=
  replies 200 "OK" (Some (JObj [("token", JStr "t"); ("name", JStr "A")]))
          "2023-06-01T00:00:00.000Z".

(** [null], or a value with an [error] key. *)
Definition error_shaped (v : jsval) : Prop :=
  v = JNull \/ js_in "error" v = inr true.

(** A user whose data carry no [canUpdate]. *)
Definition nameless : jsval := JObj [("name", JStr "C")].

(** A 2xx answer to [authenticate] that carries neither error nor data. *)
Definition login_empty : Env :=
  replies 200 "OK" (Some (JObj [])) "2023-06-01T00:00:00.000Z".

(** * Properties *)

(** ** Strings *)

Section StringFacts.

Lemma app_nil_l (t : string) : EmptyString +:+ t = t.
Proof. reflexivity. Qed.

Lemma app_cons (c : ascii) (s t : string) :
  String c s +:+ t = String c (s +:+ t).
Proof. reflexivity. Qed.

Lemma app_nil_r (s : string) : s +:+ EmptyString = s.
Proof.
  induction s as [|c s IH]; [reflexivity |].
  now rewrite app_cons, IH.
Qed.

Lemma length_app (s t : string) :
  String.length (s +:+ t) = (String.length s + String.length t)%nat.
Proof.
  induction s as [|c s IH]; [reflexivity |].
  rewrite app_cons. simpl. now rewrite IH.
Qed.

Lemma substring_all (s : string) : substring 0 (String.length s) s = s.
Proof. induction s as [|c s IH]; simpl; [reflexivity | now rewrite IH]. Qed.

Lemma substring_app_prefix (s t : string) :
  substring 0 (String.length s) (s +:+ t) = s.
Proof.
  induction s as [|c s IH].
  - rewrite app_nil_l. now destruct t.
  - rewrite app_cons. simpl. now rewrite IH.
Qed.

Lemma substring_app_suffix (s t : string) :
  substring (String.length s) (String.length t) (s +:+ t) = t.
Proof.
  induction s as [|c s IH].
  - rewrite app_nil_l. apply substring_all.
  - rewrite app_cons. exact IH.
Qed.

(** A string is its first [n] units followed by the rest. *)
Lemma substring_split (n : nat) (s : string) :
  (n <= String.length s)%nat ->
  s = substring 0 n s +:+ substring n (String.length s - n) s.
Proof.
  revert s; induction n as [|n IH]; intros s Hn.
  - rewrite Nat.sub_0_r, substring_all. now destruct s.
  - destruct s as [|c s]; simpl in *; [lia |].
    rewrite app_cons. f_equal. apply IH. lia.
Qed.
Lemma slice_last_app (s : string) :
  JsString.slice (s +:+ "/") (-1) None = "/".
Proof.
  unfold JsString.slice, JsString.len. simpl default.
  rewrite length_app. simpl String.length.
  replace (Z.of_nat (String.length s + 1) + -1) with (Z.of_nat (String.length s)) by lia.
  destruct (Z.ltb_spec (-1) 0) as [_|]; [|lia].
  destruct (Z.ltb_spec (Z.of_nat (String.length s + 1)) 0) as [|_]; [lia|].
  match goal with
  | |- substring ?a ?b _ = _ =>
      replace a with (String.length s) by lia;
      replace b with (String.length "/") by (simpl; lia)
  end.
  apply substring_app_suffix.
Qed.

Lemma slice_init_app (s : string) :
  JsString.slice (s +:+ "/") 0 (Some (-1)) = s.
Proof.
  unfold JsString.slice, JsString.len. simpl default.
  rewrite length_app. simpl String.length.
  destruct (Z.ltb_spec 0 0) as [|_]; [lia|].
  destruct (Z.ltb_spec (-1) 0) as [_|]; [|lia].
  match goal with
  | |- substring ?a ?b _ = _ =>
      replace a with 0%nat by lia; replace b with (String.length s) by lia
  end.
  apply substring_app_prefix.
Qed.

(** The test of the constructor picks exactly the strings that end in a
    slash. *)
Lemma slice_last_slash (s : string) :
  JsString.slice s (-1) None = "/" -> exists t, s = t +:+ "/".
Proof.
  unfold JsString.slice, JsString.len. simpl default.
  destruct (Z.ltb_spec (-1) 0) as [_|]; [|lia].
  destruct (Z.ltb_spec (Z.of_nat (String.length s)) 0) as [|_]; [lia|].
  destruct s as [|c s]; [discriminate |].
  set (n := String.length (String c s)).
  assert (Hn : (1 <= n)%nat) by (subst n; simpl; lia).
  match goal with
  | |- substring ?a ?b _ = _ -> _ =>
      replace a with (n - 1)%nat by lia;
      replace b with (n - (n - 1))%nat by lia
  end.
  intros H. exists (substring 0 (n - 1) (String c s)).
  rewrite <- H. apply substring_split. lia.
Qed.

End StringFacts.

(** ** The request helper *)

Ltac unfold_monad :=
  unfold lift;
  unfold bind, ret, throw,
    get_currentError, get_currentUser, get_serverEndpoint,
    set_currentError, set_currentUser, Date_now_toISOString,
    await_fetch, await_json, Cookies.get, Cookies.set, Cookies.remove.

(** [#request] in one step: the call is logged; a rejected [fetch] or an
    unreadable body rejects; a 2xx body is handed back untouched; any other
    status is turned into an error, stored and returned. *)
Lemma request_eq (endpoint : string) (method : Method) (parameters : entries)
    (env : Env) (s : State) :
  request endpoint method parameters env s =
  let r := request_of s endpoint method parameters in
  match fetch env r with
  | None => (Rejected NetworkError, logged r s)
  | Some resp =>
      if ok resp then
        match json resp with
        | Some v => (Resolved v, logged r s)
        | None => (Rejected SyntaxError, logged r s)
        end
      else (Resolved (http_error resp),
            with_currentError (http_error resp) (logged r s))
  end.
Proof.
  unfold request. unfold_monad. cbn zeta.
  fold (userApiKey_of s) (sessionKey_of s).
  fold (request_of s endpoint method parameters).
  destruct (fetch env _) as [resp|]; [|reflexivity].
  destruct (ok resp); [|reflexivity].
  now destruct (json resp).
Qed.

(** [#request] never touches the cookie jar or the current user. *)
Lemma request_frame (endpoint : string) (method : Method) (parameters : entries)
    (env : Env) (s : State) :
  let s' := snd (request endpoint method parameters env s) in
  jar s' = jar s
  /\ currentUser (this s') = currentUser (this s)
  /\ serverEndpoint (this s') = serverEndpoint (this s)
  /\ fetched s' = (fetched s ++ [request_of s endpoint method parameters])%list.
Proof.
  rewrite request_eq. cbn zeta.
  destruct (fetch env _) as [resp|]; [|now cbn].
  destruct (ok resp); [|now cbn].
  now destruct (json resp).
Qed.

(** ** What each method does on each kind of answer *)

(** Where [in] answers, reading a property does not throw. *)
Lemma js_in_get (k k' : string) (v : jsval) (x : bool) :
  js_in k v = inr x -> exists w, js_get v k' = inr w.
Proof. destruct v; simpl; intros H; try discriminate; eauto. Qed.

Ltac step_request :=
  rewrite request_eq; cbn zeta;
  repeat match goal with
         | H : fetch ?env ?r = _ |- context [fetch ?env ?r'] =>
             change (fetch env r') with (fetch env r); rewrite H
         | H : ok ?resp = _ |- context [ok ?resp] => rewrite H
         | H : json ?resp = _ |- context [json ?resp] => rewrite H
         end.

Lemma authenticate_success (env : Env) (s : State) (b session data : jsval) :
  answers_ok env (sent Authenticate env s) b ->
  js_in "error" b = inr false ->
  js_get b "session" = inr session ->
  js_get b "data" = inr data ->
  authenticate env s =
  (Resolved data,
   with_currentUser data
     (with_jar (<["annotation-key" := session_cookie session]> (jar s))
        (logged (sent Authenticate env s)
           (with_currentUser JNull (with_currentError JNull s))))).
Proof.
  intros (resp & Hf & Hok & Hj) Hin Hs Hd.
  unfold authenticate. unfold_monad. step_request.
  rewrite Hin. cbn. rewrite Hs, Hd. reflexivity.
Qed.

Lemma authenticate_error_body (env : Env) (s : State) (b : jsval) :
  answers_ok env (sent Authenticate env s) b ->
  js_in "error" b = inr true ->
  authenticate env s =
  (Resolved JNull,
   with_jar (delete "annotation-key" (jar s))
     (logged (sent Authenticate env s)
        (with_currentUser JNull (with_currentError JNull s)))).
Proof.
  intros (resp & Hf & Hok & Hj) Hin.
  unfold authenticate. unfold_monad. step_request.
  rewrite Hin. reflexivity.
Qed.

Lemma authenticate_not_ok (env : Env) (s : State) (resp : Response) :
  answers_not_ok env (sent Authenticate env s) resp ->
  authenticate env s =
  (Resolved (http_error resp),
   with_jar (delete "annotation-key" (jar s))
     (with_currentError (http_error resp)
        (logged (sent Authenticate env s)
           (with_currentUser JNull (with_currentError JNull s))))).
Proof.
  intros [Hf Hok].
  unfold authenticate. unfold_monad. step_request.
  reflexivity.
Qed.

Lemma read_eq (endpoint : string) (parameters : entries) (env : Env) (s : State) :
  read endpoint parameters env s =
  match request endpoint GET parameters env s with
  | (Resolved result, s') =>
      match js_in "error" result with
      | inr false => (Resolved result, s')
      | inr true => (Resolved (currentError (this s')), s')
      | inl e => (Rejected e, s')
      end
  | (Rejected e, s') => (Rejected e, s')
  end.
Proof.
  unfold read. unfold_monad.
  destruct (request _ _ _ env s) as [[result|e] s']; [|reflexivity].
  destruct (js_in "error" result) as [e|[|]]; reflexivity.
Qed.

(** A read call is [read] on the endpoint and parameters of [sent]. *)
Lemma read_call (c : Call) (env : Env) (s : State) :
  is_read c = true ->
  exists endpoint parameters,
    call c = read endpoint parameters
    /\ sent c env s = request_of s endpoint GET parameters.
Proof.
  destruct c; try discriminate; intros _; simpl;
    unfold annotatedItemIds, drawnFeatures, itemAnnotations, annotation; eauto.
Qed.

(** ** Adding an annotation without the right to *)

(** C1.  Whenever there is no current user, or the current user's
    [canUpdate] is [false], [addAnnotation] resolves to
    [{error: "user cannot add annotation"}] for every annotation; the log of
    [fetch] calls is left as it was, so the request helper was not run. *)
Theorem addAnnotation_refused (env : Env) (s : State) (a : UserAnnotation) :
  currentUser (this s) = JNull
  \/ js_get (currentUser (this s)) "canUpdate" = inr (JBool false) ->
  addAnnotation a env s =
    (Resolved (ErrorResult "user cannot add annotation"),
     with_currentError (ErrorResult "user cannot add annotation") s)
  /\ fetched (after (AddAnnotation a) env s) = fetched s.
Proof.
  intros H.
  assert (E : addAnnotation a env s =
              (Resolved (ErrorResult "user cannot add annotation"),
               with_currentError (ErrorResult "user cannot add annotation") s)).
  { unfold addAnnotation, user_can_update. unfold_monad.
    destruct H as [H|H].
    - now rewrite H.
    - destruct (truthy (currentUser (this s))) eqn:T.
      + now rewrite H.
      + now rewrite T. }
  split; [exact E |].
  unfold after, call. now rewrite E.
Qed.

Lemma addAnnotation_refused_witness :
  addAnnotation note items_ok (logged_in reader) =
    (Resolved (ErrorResult "user cannot add annotation"),
     with_currentError (ErrorResult "user cannot add annotation")
                       (logged_in reader))
  /\ fetched (after (AddAnnotation note) items_ok (logged_in reader))
     = fetched (logged_in reader).
Proof.
  apply (addAnnotation_refused items_ok (logged_in reader) note).
  right. reflexivity.
Defined.

(** ** What a call leaves alone *)

Lemma read_frame (endpoint : string) (parameters : entries) (env : Env) (s : State) :
  let s' := snd (read endpoint parameters env s) in
  jar s' = jar s /\ currentUser (this s') = currentUser (this s).
Proof.
  rewrite read_eq.
  pose proof (request_frame endpoint GET parameters env s) as F. cbn zeta in F.
  destruct (request _ _ _ env s) as [[result|e] s']; cbn in *; [|tauto].
  destruct (js_in "error" result) as [e|[|]]; cbn; tauto.
Qed.

Lemma addAnnotation_frame (a : UserAnnotation) (env : Env) (s : State) :
  let s' := snd (addAnnotation a env s) in
  jar s' = jar s /\ currentUser (this s') = currentUser (this s).
Proof.
  unfold addAnnotation, user_can_update. unfold_monad.
  destruct (truthy (currentUser (this s))) eqn:T.
  - destruct (js_get (currentUser (this s)) "canUpdate") as [e|can];
      [split; reflexivity|].
    destruct (truthy can); [|split; reflexivity].
    match goal with
    | |- context [request ?e ?m ?p env s] =>
        pose proof (request_frame e m p env s) as F; cbn zeta in F;
        destruct (request e m p env s) as [[result|e'] s']
    end; cbn in *; [|tauto].
    destruct (js_in "error" result) as [e'|[|]]; cbn; tauto.
  - rewrite T. split; reflexivity.
Qed.

(** Every call but [authenticate] leaves the cookie jar as it was. *)
Lemma jar_frame (c : Call) (env : Env) (s : State) :
  c <> Authenticate -> jar (after c env s) = jar s.
Proof.
  intros Hc. unfold after.
  destruct c; simpl call; try congruence;
    try (apply read_frame); try (apply addAnnotation_frame).
  unfold unauthenticate. unfold_monad.
  match goal with
  | |- context [request ?e ?m ?p env ?s0] =>
      pose proof (request_frame e m p env s0) as F; cbn zeta in F;
      destruct (request e m p env s0) as [[result|e'] s']
  end; cbn in *; [|tauto].
  destruct (js_in "success" result) as [e'|[|]]; cbn; tauto.
Qed.

(** [unauthenticate] always ends with no current user. *)
Lemma unauthenticate_currentUser (env : Env) (s : State) :
  currentUser (this (after Unauthenticate env s)) = JNull.
Proof.
  unfold after, call, unauthenticate. unfold_monad.
  match goal with
  | |- context [request ?e ?m ?p env ?s0] =>
      pose proof (request_frame e m p env s0) as F; cbn zeta in F;
      destruct (request e m p env s0) as [[result|e'] s']
  end; cbn in *; [|tauto].
  destruct (js_in "success" result) as [e'|[|]]; cbn; tauto.
Qed.

Lemma currentUser_frame (c : Call) (env : Env) (s : State) :
  c <> Authenticate -> c <> Unauthenticate ->
  currentUser (this (after c env s)) = currentUser (this s).
Proof.
  intros H1 H2. unfold after.
  destruct c; simpl call; try congruence;
    try (apply read_frame); apply addAnnotation_frame.
Qed.

(** ** Reading after an earlier failure *)

(** C9.  A read method ([annotatedItemIds], [drawnFeatures],
    [itemAnnotations], [annotation]) answered by a 2xx response whose body
    has no [error] key resolves to that body and leaves the three fields of
    the service, so [currentUser] and [currentError], exactly as they were:
    an error left by an earlier call is still there. *)
Theorem read_ok_keeps_fields (c : Call) (env : Env) (s : State) (b : jsval) :
  is_read c = true ->
  answers_ok env (sent c env s) b ->
  js_in "error" b = inr false ->
  call c env s = (Resolved b, logged (sent c env s) s)
  /\ currentUser (this (after c env s)) = currentUser (this s)
  /\ currentError (this (after c env s)) = currentError (this s).
Proof.
  intros Hr (resp & Hf & Hok & Hj) Hin.
  destruct (read_call c env s Hr) as (endpoint & parameters & Hc & Hs).
  assert (E : call c env s = (Resolved b, logged (sent c env s) s)).
  { rewrite Hc, Hs in *. rewrite read_eq. step_request. now rewrite Hin. }
  split; [exact E|].
  unfold after. now rewrite E.
Qed.

Lemma read_ok_keeps_fields_witness :
  call (AnnotatedItemIds "r1") items_ok stale_error
  = (Resolved (JArr [JStr "i1"; JStr "i2"]),
     logged (sent (AnnotatedItemIds "r1") items_ok stale_error) stale_error)
  /\ currentUser (this (after (AnnotatedItemIds "r1") items_ok stale_error)) = A_user
  /\ currentError (this (after (AnnotatedItemIds "r1") items_ok stale_error))
     = ErrorResult "500 Internal Server Error".
Proof.
  apply (read_ok_keeps_fields (AnnotatedItemIds "r1") items_ok stale_error
           (JArr [JStr "i1"; JStr "i2"])).
  - reflexivity.
  - eexists. repeat split; reflexivity.
  - reflexivity.
Defined.

(** ** Every outcome of [authenticate] *)

(** Either [authenticate] ends with no current user, or it ends with no
    current error and the user is the [data] of a 2xx body that has no
    [error] key. *)
Lemma authenticate_outcome (env : Env) (s : State) :
  let s' := after Authenticate env s in
  currentUser (this s') = JNull
  \/ (currentError (this s') = JNull
      /\ exists b, answers_ok env (sent Authenticate env s) b
                   /\ js_in "error" b = inr false
                   /\ js_get b "data" = inr (currentUser (this s'))).
Proof.
  unfold after, call, authenticate. unfold_monad. rewrite request_eq. cbn zeta.
  change (request_of _ "authenticate" GET []) with (sent Authenticate env s).
  destruct (fetch env _) as [resp|] eqn:Hf; [|now left].
  destruct (ok resp) eqn:Hok; [|now left].
  destruct (json resp) as [b|] eqn:Hj; [|now left].
  destruct (js_in "error" b) as [e|[|]] eqn:Hin; [now left | now left |].
  destruct (js_in_get "error" "session" b false Hin) as [session Hs].
  destruct (js_in_get "error" "data" b false Hin) as [data Hd].
  rewrite Hs. cbn. rewrite Hd. cbn.
  right. split; [reflexivity|].
  exists b. split; [|now split].
  exists resp. now repeat split.
Qed.

(** A rejected [authenticate] leaves the cookie jar as it was. *)
Lemma authenticate_rejected_jar (env : Env) (s : State) (e : Exn) :
  fst (authenticate env s) = Rejected e ->
  jar (after Authenticate env s) = jar s.
Proof.
  unfold after, call, authenticate. unfold_monad. rewrite request_eq. cbn zeta.
  destruct (fetch env _) as [resp|]; [|reflexivity].
  destruct (ok resp); [|intros H; cbn in H; discriminate].
  destruct (json resp) as [b|]; [|reflexivity].
  destruct (js_in "error" b) as [e'|[|]] eqn:Hin;
    [reflexivity | intros H; cbn in H; discriminate |].
  destruct (js_in_get "error" "session" b false Hin) as [session Hs].
  destruct (js_in_get "error" "data" b false Hin) as [data Hd].
  rewrite Hs. cbn. rewrite Hd. intros H; cbn in H; discriminate.
Qed.

(** ** Who assigns the current user *)

(** C10.  [currentUser] is assigned by [authenticate] and [unauthenticate]
    only: every other call leaves it as it was, in every state and whatever
    the server answers; [unauthenticate] always leaves it [null]; and
    [authenticate] leaves it non-null only when the server answered 2xx with
    a body that has no [error] key, and then it is the [data] of that
    body. *)
Theorem currentUser_assignment (c : Call) (env : Env) (s : State) :
  (c <> Authenticate -> c <> Unauthenticate ->
   currentUser (this (after c env s)) = currentUser (this s))
  /\ currentUser (this (after Unauthenticate env s)) = JNull
  /\ (currentUser (this (after Authenticate env s)) <> JNull ->
      exists b, answers_ok env (sent Authenticate env s) b
                /\ js_in "error" b = inr false
                /\ js_get b "data"
                   = inr (currentUser (this (after Authenticate env s)))).
Proof.
  split; [apply currentUser_frame|].
  split; [apply unauthenticate_currentUser|].
  intros Hn.
  destruct (authenticate_outcome env s) as [H|[_ H]]; [contradiction | exact H].
Qed.

Lemma currentUser_assignment_witness :
  currentUser (this (after (AddAnnotation note) login_ok (logged_in reader))) = reader
  /\ currentUser (this (after Unauthenticate login_ok (logged_in reader))) = JNull
  /\ exists b, answers_ok login_ok (sent Authenticate login_ok (logged_in reader)) b
               /\ js_in "error" b = inr false
               /\ js_get b "data"
                  = inr (currentUser (this (after Authenticate login_ok
                                                  (logged_in reader)))).
Proof.
  destruct (currentUser_assignment (AddAnnotation note) login_ok (logged_in reader))
    as (H1 & H2 & H3).
  split; [apply H1; discriminate|].
  split; [exact H2|].
  apply H3. vm_compute. discriminate.
Defined.

(** ** The two slots along a run *)

Lemma run_cons (c : Call) (env : Env) (cs : list (Call * Env)) (s : State) :
  run ((c, env) :: cs) s = run cs (after c env s).
Proof. reflexivity. Qed.






(** ** Errors carried by a 2xx body *)

(** C3, on the code.  When the server answers [authenticate] with a 2xx
    response whose body has an [error] key, the session cookie is removed
    and the current user is [null], but the body is stored nowhere:
    [currentError] is [null] and [authenticate] resolves to [null]. *)
Theorem authenticate_error_body_lost (env : Env) (s : State) (b : jsval) :
  answers_ok env (sent Authenticate env s) b ->
  js_in "error" b = inr true ->
  fst (authenticate env s) = Resolved JNull
  /\ currentError (this (after Authenticate env s)) = JNull
  /\ currentUser (this (after Authenticate env s)) = JNull
  /\ jar (after Authenticate env s) = delete "annotation-key" (jar s).
Proof.
  intros Ha Hin. unfold after, call.
  rewrite (authenticate_error_body env s b Ha Hin).
  repeat split.
Qed.

Lemma authenticate_error_body_lost_witness :
  fst (authenticate login_refused with_session) = Resolved JNull
  /\ currentError (this (after Authenticate login_refused with_session)) = JNull
  /\ currentUser (this (after Authenticate login_refused with_session)) = JNull
  /\ jar (after Authenticate login_refused with_session)
     = delete "annotation-key" (jar with_session).
Proof.
  apply (authenticate_error_body_lost login_refused with_session
           (JObj [("error", JStr "unknown user")])).
  - eexists. repeat split; reflexivity.
  - reflexivity.
Defined.

(** C4, on the code.  When the server answers a read method with a 2xx
    response whose body has an [error] key, the method resolves to whatever
    [currentError] held before the call ([null] in a new service) and the
    slot is not updated: the error of the body reaches neither the caller
    nor the slot. *)
Theorem read_error_body_lost (c : Call) (env : Env) (s : State) (b : jsval) :
  is_read c = true ->
  answers_ok env (sent c env s) b ->
  js_in "error" b = inr true ->
  fst (call c env s) = Resolved (currentError (this s))
  /\ currentError (this (after c env s)) = currentError (this s).
Proof.
  intros Hr (resp & Hf & Hok & Hj) Hin.
  destruct (read_call c env s Hr) as (endpoint & parameters & Hc & Hs).
  unfold after. rewrite Hc, Hs in *. rewrite read_eq. step_request.
  rewrite Hin. split; reflexivity.
Qed.

Lemma read_error_body_lost_witness :
  fst (call (AnnotatedItemIds "r1") items_refused (fresh "https://x/y" ∅))
  = Resolved JNull
  /\ currentError (this (after (AnnotatedItemIds "r1") items_refused
                               (fresh "https://x/y" ∅))) = JNull.
Proof.
  apply (read_error_body_lost (AnnotatedItemIds "r1") items_refused
           (fresh "https://x/y" ∅) (JObj [("error", JStr "unknown resource")])).
  - reflexivity.
  - eexists. repeat split; reflexivity.
  - reflexivity.
Defined.

(** ** The session cookie *)

(** C5, as stated, fails: [unauthenticate] answered with success leaves
    the session cookie in the jar. *)
Lemma unauthenticate_keeps_cookie_counterexample :
  fst (unauthenticate logout_ok with_session)
  = Resolved (JObj [("success", JStr "logged out")])
  /\ jar (after Unauthenticate logout_ok with_session) !! "annotation-key"
     = Some (session_cookie (JStr "abc")).
Proof. split; vm_compute; reflexivity. Qed.

(** C5, amended.  The cookie [annotation-key] is written by a successful
    [authenticate] (secure, expiring in one day, holding the [session] of
    the body); it is removed by a failed [authenticate], be the failure a
    response outside 2xx or a 2xx body with an [error] key; an
    [authenticate] that rejects and every other call, [unauthenticate]
    included, leave the cookie jar as it was. *)
Theorem session_cookie_lifecycle (c : Call) (env : Env) (s : State) :
  (forall b session,
      answers_ok env (sent Authenticate env s) b ->
      js_in "error" b = inr false ->
      js_get b "session" = inr session ->
      jar (after Authenticate env s)
      = <["annotation-key" := session_cookie session]> (jar s))
  /\ (forall b,
         answers_ok env (sent Authenticate env s) b ->
         js_in "error" b = inr true ->
         jar (after Authenticate env s) = delete "annotation-key" (jar s))
  /\ (forall resp,
         answers_not_ok env (sent Authenticate env s) resp ->
         jar (after Authenticate env s) = delete "annotation-key" (jar s))
  /\ (forall e,
         fst (authenticate env s) = Rejected e ->
         jar (after Authenticate env s) = jar s)
  /\ (c <> Authenticate -> jar (after c env s) = jar s).
Proof.
  repeat split.
  - intros b session Ha Hin Hs.
    destruct (js_in_get "error" "data" b false Hin) as [data Hd].
    unfold after, call.
    now rewrite (authenticate_success env s b session data Ha Hin Hs Hd).
  - intros b Ha Hin. unfold after, call.
    now rewrite (authenticate_error_body env s b Ha Hin).
  - intros resp Ha. unfold after, call.
    now rewrite (authenticate_not_ok env s resp Ha).
  - apply authenticate_rejected_jar.
  - apply jar_frame.
Qed.

Lemma session_cookie_lifecycle_witness :
  jar (after Authenticate login_ok (fresh "https://x/y" ∅))
  = <["annotation-key" := session_cookie (JStr "abc")]> ∅
  /\ jar (after Authenticate login_refused with_session)
     = delete "annotation-key" (jar with_session)
  /\ jar (after Authenticate server_down with_session)
     = delete "annotation-key" (jar with_session)
  /\ jar (after Authenticate offline with_session) = jar with_session
  /\ jar (after Unauthenticate logout_ok with_session) = jar with_session.
Proof.
  split; [|split; [|split; [|split]]].
  - destruct (session_cookie_lifecycle Authenticate login_ok
                (fresh "https://x/y" ∅)) as (H & _).
    apply (H (JObj [("session", JStr "abc"); ("data", A_user)]) (JStr "abc"));
      [eexists; repeat split; reflexivity | reflexivity | reflexivity].
  - destruct (session_cookie_lifecycle Authenticate login_refused with_session)
      as (_ & H & _).
    apply (H (JObj [("error", JStr "unknown user")]));
      [eexists; repeat split; reflexivity | reflexivity].
  - destruct (session_cookie_lifecycle Authenticate server_down with_session)
      as (_ & _ & H & _).
    apply (H {| status := 500; statusText := "Internal Server Error";
                json := None |}).
    split; reflexivity.
  - destruct (session_cookie_lifecycle Authenticate offline with_session)
      as (_ & _ & _ & H & _).
    apply (H NetworkError). reflexivity.
  - destruct (session_cookie_lifecycle Unauthenticate logout_ok with_session)
      as (_ & _ & _ & _ & H).
    apply H. discriminate.
Defined.

(** ** The payload of [addAnnotation] *)








(** ** The base URL *)

Lemma constructor_slash (t : string) :
  serverEndpoint (constructor (t +:+ "/")) = t.
Proof.
  unfold constructor; cbn [serverEndpoint].
  rewrite slice_last_app, slice_init_app. reflexivity.
Qed.

Lemma constructor_no_slash (s : string) :
  (forall t, s <> t +:+ "/") -> serverEndpoint (constructor s) = s.
Proof.
  intros Hs. unfold constructor; cbn [serverEndpoint].
  destruct (String.eqb_spec (JsString.slice s (-1) None) "/") as [E|_];
    [|reflexivity].
  destruct (slice_last_slash s E) as [t Ht]. now destruct (Hs t).
Qed.

(** C7.  For a base URL [s] that does not end in a slash, the service
    built from [s] and the one built from [s] followed by a slash are the
    same, so they send the same request for every endpoint, method and
    parameter list.  One slash is stripped, no more: built from [s] followed
    by two slashes, the service keeps one. *)
Theorem trailing_slash (s : string) (cookies : gmap string Cookie)
    (endpoint : string) (method : Method) (parameters : entries) :
  (forall t, s <> t +:+ "/") ->
  constructor (s +:+ "/") = constructor s
  /\ request_of (fresh (s +:+ "/") cookies) endpoint method parameters
     = request_of (fresh s cookies) endpoint method parameters
  /\ serverEndpoint (constructor (s +:+ "/")) = s
  /\ serverEndpoint (constructor ((s +:+ "/") +:+ "/")) = s +:+ "/".
Proof.
  intros Hs.
  assert (E : constructor (s +:+ "/") = constructor s).
  { pose proof (constructor_slash s) as H1.
    pose proof (constructor_no_slash s Hs) as H2.
    unfold constructor in *. cbn [serverEndpoint] in *. now rewrite H1, H2. }
  split; [exact E|].
  split; [unfold fresh; now rewrite E|].
  split; apply constructor_slash.
Qed.

Lemma trailing_slash_witness :
  constructor ("https://x/y" +:+ "/") = constructor "https://x/y"
  /\ request_of (fresh ("https://x/y" +:+ "/") ∅) "items/" GET
                [("resource", JStr "r1")]
     = request_of (fresh "https://x/y" ∅) "items/" GET [("resource", JStr "r1")]
  /\ serverEndpoint (constructor ("https://x/y" +:+ "/")) = "https://x/y"
  /\ serverEndpoint (constructor (("https://x/y" +:+ "/") +:+ "/"))
     = "https://x/y" +:+ "/".
Proof.
  apply (trailing_slash "https://x/y" ∅ "items/" GET [("resource", JStr "r1")]).
  intros t Ht.
  assert (H : JsString.slice "https://x/y" (-1) None
              = JsString.slice (t +:+ "/") (-1) None) by now rewrite <- Ht.
  rewrite slice_last_app in H. vm_compute in H. discriminate H.
Defined.

(** ** The URL of a GET request *)

(** Every call but [addAnnotation] sends exactly the request [sent]
    names, and sends it with GET. *)
Lemma call_sends (c : Call) (env : Env) (s : State) :
  (forall a, c <> AddAnnotation a) ->
  fetched (after c env s) = (fetched s ++ [sent c env s])%list
  /\ method (sent c env s) = GET.
Proof.
  intros Hc. split; [|destruct c; try reflexivity; now destruct (Hc userAnnotation)].
  unfold after.
  destruct c; simpl call;
    try (now destruct (Hc userAnnotation));
    unfold authenticate, unauthenticate, annotatedItemIds, drawnFeatures,
      itemAnnotations, annotation;
    try rewrite read_eq; unfold_monad;
    match goal with
    | |- context [request ?e ?m ?p env ?s0] =>
        pose proof (request_frame e m p env s0) as F; cbn zeta in F;
        destruct F as (_ & _ & _ & F);
        destruct (request e m p env s0) as [[result|e'] s']
    end; cbn [snd] in F; try exact F.
  - destruct (js_in "error" result) as [e|[|]] eqn:Hin; cbn; try exact F.
    destruct (js_in_get "error" "session" result false Hin) as [session Hs].
    destruct (js_in_get "error" "data" result false Hin) as [data Hd].
    rewrite Hs. cbn. rewrite Hd. exact F.
  - destruct (js_in "success" result) as [e|[|]]; exact F.
  - destruct (js_in "error" result) as [e|[|]]; exact F.
  - destruct (js_in "error" result) as [e|[|]]; exact F.
  - destruct (js_in "error" result) as [e|[|]]; exact F.
  - destruct (js_in "error" result) as [e|[|]]; exact F.
Qed.

(** C8.  A GET through the request helper calls [fetch] once, with the URL
    [base/endpoint?pairs]: the pairs, joined by [&], are one
    [key=encodeURIComponent(JSON.stringify(value))] for each parameter, in
    the order of the parameters, then [key=] with the API key and [session=]
    with the session credential, both read from the cookie jar and
    percent-encoded, as the last two.  The URL depends on nothing else: from
    any state with the same base and the same two cookies, the same
    parameters give the same URL. *)
Theorem GET_url (endpoint : string) (parameters : entries) (env : Env) (s : State) :
  exists r,
    fetched (snd (request endpoint GET parameters env s)) = (fetched s ++ [r])%list
    /\ method r = GET
    /\ url r
       = (serverEndpoint (this s) +:+ "/" +:+ endpoint) +:+ "?" +:+
         JsString.join "&"
           (map (fun kv =>
                   fst kv +:+ "=" +:+
                   Uri.encodeURIComponent
                     (default "undefined" (Json.stringify (snd kv))))
                parameters
            ++ ["key=" +:+ Uri.encodeURIComponent
                             (or_empty (cookie_value <$> jar s !! "user-token"));
                "session=" +:+ Uri.encodeURIComponent
                                 (or_empty (cookie_value <$> jar s !! "annotation-key"))])%list
    /\ forall env' s',
         serverEndpoint (this s') = serverEndpoint (this s) ->
         jar s' !! "user-token" = jar s !! "user-token" ->
         jar s' !! "annotation-key" = jar s !! "annotation-key" ->
         exists r',
           fetched (snd (request endpoint GET parameters env' s'))
           = (fetched s' ++ [r'])%list
           /\ url r' = url r.
Proof.
  exists (request_of s endpoint GET parameters).
  split; [apply request_frame|].
  split; [reflexivity|].
  split; [reflexivity|].
  intros env' s' He Hu Hk.
  exists (request_of s' endpoint GET parameters).
  split; [apply request_frame|].
  unfold request_of, userApiKey_of, sessionKey_of.
  now rewrite He, Hu, Hk.
Qed.

Lemma GET_url_witness :
  exists r,
    fetched (snd (request "annotations/" GET
                    [("resource", JStr "r 1"); ("item", JStr "i/1")]
                    items_ok with_session)) = [r]
    /\ url r = "https://x/y/annotations/?resource=%22r%201%22&item=%22i%2F1%22&key=&session=abc"
    /\ exists r',
         fetched (snd (request "annotations/" GET
                         [("resource", JStr "r 1"); ("item", JStr "i/1")]
                         server_down (with_currentUser A_user with_session)))
         = [r']
         /\ url r' = url r.
Proof.
  destruct (GET_url "annotations/" [("resource", JStr "r 1"); ("item", JStr "i/1")]
              items_ok with_session) as (r & Hf & _ & Hu & Hs).
  exists r. split; [exact Hf|]. split; [rewrite Hu; vm_compute; reflexivity|].
  apply (Hs server_down (with_currentUser A_user with_session));
    reflexivity.
Defined.

(** The URL of [itemAnnotations]: both identifiers go through
    [JSON.stringify] and [encodeURIComponent], resource first. *)
Lemma itemAnnotations_url (resourceId ItemId : string) (env : Env) (s : State) :
  url (sent (ItemAnnotations resourceId ItemId) env s)
  = (serverEndpoint (this s) +:+ "/annotations/") +:+ "?" +:+
    ("resource=" +:+ Uri.encodeURIComponent (Json.quote resourceId)) +:+ "&" +:+
    ("item=" +:+ Uri.encodeURIComponent (Json.quote ItemId)) +:+ "&" +:+
    ("key=" +:+ Uri.encodeURIComponent (userApiKey_of s)) +:+ "&" +:+
    ("session=" +:+ Uri.encodeURIComponent (sessionKey_of s)).
Proof. reflexivity. Qed.

(** ** The scenarios of the specification *)

(** A mock server answers [authenticate] with a session and a user. *)
Example scenario_authenticate :
  let s := after Authenticate login_ok (fresh "https://x/y/" ∅) in
  currentUser (this s) = A_user
  /\ currentError (this s) = JNull
  /\ jar s !! "annotation-key"
     = Some {| cookie_value := "abc";
               cookie_attributes := {| secure := true; expires := Some 1 |} |}
  /\ map url (fetched s) = ["https://x/y/authenticate?key=&session="].
Proof. repeat split; vm_compute; reflexivity. Qed.

(** A user who cannot update adds an annotation. *)
Example scenario_addAnnotation :
  addAnnotation note items_ok (logged_in reader)
  = (Resolved (JObj [("error", JStr "user cannot add annotation")]),
     with_currentError (JObj [("error", JStr "user cannot add annotation")])
                       (logged_in reader))
  /\ fetched (logged_in reader) = [].
Proof. split; reflexivity. Qed.

(** The server answers [annotatedItemIds("r1")] with a 500. *)
Example scenario_server_error :
  let r := annotatedItemIds "r1" server_down (fresh "https://x/y" ∅) in
  fst r = Resolved (JObj [("error", JStr "500 Internal Server Error")])
  /\ currentError (this (snd r))
     = JObj [("error", JStr "500 Internal Server Error")].
Proof. split; vm_compute; reflexivity. Qed.


(** * Further properties of the service *)

(** ** The guard of [addAnnotation] *)

Lemma truthy_get (v : jsval) (k : string) :
  truthy v = true -> exists w, js_get v k = inr w.
Proof. destruct v; simpl; intros H; try discriminate; eauto. Qed.

Lemma user_can_update_eq (env : Env) (s : State) :
  user_can_update env s = (Resolved (guard_value s), s).
Proof.
  unfold user_can_update, guard_value. unfold_monad. cbn zeta.
  destruct (truthy (currentUser (this s))) eqn:T; [|reflexivity].
  destruct (truthy_get _ "canUpdate" T) as [w Hw]. now rewrite Hw.
Qed.

(** [addAnnotation], guard first. *)
Lemma addAnnotation_eq (a : UserAnnotation) (env : Env) (s : State) :
  addAnnotation a env s =
  if truthy (guard_value s) then
    match request "annotation/" POST
            [("data", JObj (annotationRequest (currentUser (this s))
                                              (toISOString_now env) a))] env s with
    | (Resolved response, s') =>
        match js_in "error" response with
        | inr false => (Resolved response, s')
        | inr true => (Resolved response, with_currentError response s')
        | inl e => (Rejected e, s')
        end
    | (Rejected e, s') => (Rejected e, s')
    end
  else
    (Resolved (ErrorResult "user cannot add annotation"),
     with_currentError (ErrorResult "user cannot add annotation") s).
Proof.
  unfold addAnnotation. unfold bind at 1. rewrite user_can_update_eq.
  destruct (truthy (guard_value s)); [|reflexivity].
  unfold_monad.
  destruct (request _ _ _ env s) as [[response|e] s']; [|reflexivity].
  destruct (js_in "error" response) as [e|[|]]; reflexivity.
Qed.

Lemma unauthenticate_eq (env : Env) (s : State) :
  unauthenticate env s =
  match request "unauthenticate" GET [] env
          (with_currentUser JNull (with_currentError JNull s)) with
  | (Resolved resultData, s') =>
      match js_in "success" resultData with
      | inr true => (Resolved resultData, s')
      | inr false => (Resolved (currentError (this s')), s')
      | inl e => (Rejected e, s')
      end
  | (Rejected e, s') => (Rejected e, s')
  end.
Proof.
  unfold unauthenticate. unfold_monad.
  destruct (request _ _ _ env _) as [[resultData|e] s']; [|reflexivity].
  destruct (js_in "success" resultData) as [e|[|]]; reflexivity.
Qed.

Lemma authenticate_eq (env : Env) (s : State) :
  authenticate env s =
  match request "authenticate" GET [] env
          (with_currentUser JNull (with_currentError JNull s)) with
  | (Resolved userData, s') =>
      match js_in "error" userData with
      | inr false =>
          match js_get userData "session", js_get userData "data" with
          | inr session, inr data =>
              (Resolved data,
               with_currentUser data
                 (with_jar (<["annotation-key" := session_cookie session]> (jar s'))
                           s'))
          | _, _ => (Rejected TypeError, s')
          end
      | inr true =>
          (Resolved (currentError (this s')),
           with_jar (delete "annotation-key" (jar s')) s')
      | inl e => (Rejected e, s')
      end
  | (Rejected e, s') => (Rejected e, s')
  end.
Proof.
  unfold authenticate. unfold_monad.
  destruct (request _ _ _ env _) as [[userData|e] s']; [|reflexivity].
  destruct (js_in "error" userData) as [e|[|]] eqn:Hin; try reflexivity.
  destruct (js_in_get "error" "session" userData false Hin) as [session Hs].
  destruct (js_in_get "error" "data" userData false Hin) as [data Hd].
  rewrite Hs. cbn. rewrite Hd. reflexivity.
Qed.

(** Each call, opened up to its use of the request helper. *)
Ltac open_call :=
  unfold after, call, annotatedItemIds, drawnFeatures, itemAnnotations,
    annotation;
  try rewrite authenticate_eq; try rewrite unauthenticate_eq;
  try rewrite read_eq; try rewrite addAnnotation_eq.

(** ** Answers outside 2xx *)

(** X1.  Whenever a call reaches the server and the answer is not 2xx,
    the call resolves to [{error: "<status> <statusText>"}] and that value
    is in [currentError] afterwards; this holds for all seven methods. *)
Theorem not_ok_answer (c : Call) (env : Env) (s : State) (resp : Response) :
  sends c s = true ->
  answers_not_ok env (sent c env s) resp ->
  fst (call c env s)
  = Resolved (JObj [("error",
                     JStr (JsString.of_Z (status resp) +:+ " " +:+ statusText resp))])
  /\ currentError (this (after c env s))
     = JObj [("error",
              JStr (JsString.of_Z (status resp) +:+ " " +:+ statusText resp))].
Proof.
  intros Hs [Hf Hok].
  destruct c; cbn [sends] in Hs; open_call; try rewrite Hs;
    step_request; split; reflexivity.
Qed.

Lemma not_ok_answer_witness :
  fst (call (AddAnnotation note) page_missing (logged_in A_user))
  = Resolved (JObj [("error", JStr "404 Not Found")])
  /\ currentError (this (after (AddAnnotation note) page_missing (logged_in A_user)))
     = JObj [("error", JStr "404 Not Found")].
Proof.
  apply (not_ok_answer (AddAnnotation note) page_missing (logged_in A_user) not_found).
  - reflexivity.
  - split; reflexivity.
Defined.

(** ** When a call rejects *)

Lemma js_in_primitive (k : string) (v : jsval) :
  js_in k v = (if is_primitive v then inl TypeError
               else inr (match v with
                         | JObj props => bool_decide (is_Some (lookup_prop k props))
                         | _ => false
                         end)).
Proof. destruct v; reflexivity. Qed.

(** X2.  A call rejects in three cases only, all after the request has
    been sent: [fetch] itself rejects; the answer is 2xx and its body is not
    JSON; the answer is 2xx and its body is a JSON primitive ([null], a
    boolean, a number, a string), on which the test for the key throws.  In
    every other case the call resolves. *)
Theorem rejection_causes (c : Call) (env : Env) (s : State) (e : Exn) :
  fst (call c env s) = Rejected e <->
  sends c s = true
  /\ match fetch env (sent c env s) with
     | None => e = NetworkError
     | Some resp =>
         ok resp = true
         /\ match json resp with
            | None => e = SyntaxError
            | Some b => is_primitive b = true /\ e = TypeError
            end
     end.
Proof.
  destruct c; cbn [sends]; open_call;
    try (destruct (truthy (guard_value s));
         [|split; [discriminate | intros [? _]; discriminate]]);
    rewrite request_eq; cbn zeta;
    unfold sent, request_of, userApiKey_of, sessionKey_of;
    cbn [this jar serverEndpoint currentUser with_currentUser with_currentError].
  all: destruct (fetch env _) as [resp|]; cbn [fst];
    [|split; [intros [= <-]; now split | now intros [_ ->]]].
  all: destruct (ok resp); cbn [fst];
    [|split; [try discriminate | intros [_ [? _]]; discriminate]].
  all: destruct (json resp) as [b|]; cbn [fst];
    [|split; [intros [= <-]; now repeat split | now intros [_ [_ ->]]]].
  all: rewrite js_in_primitive; destruct (is_primitive b) eqn:Hp; cbn [fst];
    [split; [intros [= <-]; now repeat split | now intros (_ & _ & _ & ->)]|].
  all: split; [|intros (_ & _ & ? & _); discriminate].
  all: destruct b; try discriminate Hp; cbn;
    repeat match goal with
           | |- context [bool_decide ?P] => destruct (bool_decide P)
           end; cbn; discriminate.
Qed.

Lemma rejection_causes_witness :
  fst (call (AnnotatedItemIds "r1") body_null (fresh "https://x/y" ∅))
  = Rejected TypeError.
Proof.
  apply (proj2 (rejection_causes (AnnotatedItemIds "r1") body_null
                  (fresh "https://x/y" ∅) TypeError)).
  split; [reflexivity|]. cbn. repeat split; reflexivity.
Defined.

(** ** Answers to [addAnnotation] and [unauthenticate] *)

(** X3.  When the guard of [addAnnotation] passes and the server answers
    2xx with an object or an array, the call resolves to that body; if the
    body has an [error] key it is also stored in [currentError], otherwise
    [currentError] keeps what it held; the current user and the cookie jar
    are as before. *)
Theorem addAnnotation_answered (a : UserAnnotation) (env : Env) (s : State)
    (b : jsval) (has_error : bool) :
  truthy (guard_value s) = true ->
  answers_ok env (sent (AddAnnotation a) env s) b ->
  js_in "error" b = inr has_error ->
  fst (addAnnotation a env s) = Resolved b
  /\ currentError (this (after (AddAnnotation a) env s))
     = (if has_error then b else currentError (this s))
  /\ currentUser (this (after (AddAnnotation a) env s)) = currentUser (this s)
  /\ jar (after (AddAnnotation a) env s) = jar s.
Proof.
  intros Hg (resp & Hf & Hok & Hj) Hin.
  open_call. rewrite Hg. step_request. rewrite Hin.
  destruct has_error; repeat split.
Qed.

Lemma addAnnotation_answered_witness :
  fst (addAnnotation note add_refused (logged_in A_user))
  = Resolved (JObj [("error", JStr "unknown item")])
  /\ currentError (this (after (AddAnnotation note) add_refused (logged_in A_user)))
     = JObj [("error", JStr "unknown item")]
  /\ currentUser (this (after (AddAnnotation note) add_refused (logged_in A_user)))
     = A_user
  /\ jar (after (AddAnnotation note) add_refused (logged_in A_user)) = ∅.
Proof.
  apply (addAnnotation_answered note add_refused (logged_in A_user)
           (JObj [("error", JStr "unknown item")]) true).
  - reflexivity.
  - eexists. repeat split; reflexivity.
  - reflexivity.
Defined.

(** X4.  [unauthenticate] answered 2xx with an object or an array resolves
    to the body when it has a [success] key and to [null] otherwise, an
    [error] key making no difference; either way both slots are [null]
    afterwards and the cookie jar, session cookie included, is as before. *)
Theorem unauthenticate_answered (env : Env) (s : State) (b : jsval)
    (has_success : bool) :
  answers_ok env (sent Unauthenticate env s) b ->
  js_in "success" b = inr has_success ->
  fst (unauthenticate env s) = Resolved (if has_success then b else JNull)
  /\ currentUser (this (after Unauthenticate env s)) = JNull
  /\ currentError (this (after Unauthenticate env s)) = JNull
  /\ jar (after Unauthenticate env s) = jar s.
Proof.
  intros (resp & Hf & Hok & Hj) Hin.
  open_call. step_request. rewrite Hin.
  destruct has_success; repeat split.
Qed.

Lemma unauthenticate_answered_witness :
  fst (unauthenticate login_refused stale_error) = Resolved JNull
  /\ currentUser (this (after Unauthenticate login_refused stale_error)) = JNull
  /\ currentError (this (after Unauthenticate login_refused stale_error)) = JNull
  /\ jar (after Unauthenticate login_refused stale_error) = jar stale_error.
Proof.
  apply (unauthenticate_answered login_refused stale_error
           (JObj [("error", JStr "unknown user")]) false).
  - eexists. repeat split; reflexivity.
  - reflexivity.
Defined.

(** ** The log of requests *)

Lemma addAnnotation_log (a : UserAnnotation) (env : Env) (s : State) :
  fetched (after (AddAnnotation a) env s)
  = if truthy (guard_value s)
    then (fetched s ++ [sent (AddAnnotation a) env s])%list
    else fetched s.
Proof.
  open_call. destruct (truthy (guard_value s)); [|reflexivity].
  match goal with
  | |- context [request ?e ?m ?p env s] =>
      pose proof (request_frame e m p env s) as F; cbn zeta in F;
      destruct F as (_ & _ & _ & F);
      destruct (request e m p env s) as [[response|e'] s']
  end; cbn [snd] in F; [|exact F].
  destruct (js_in "error" response) as [e|[|]]; exact F.
Qed.

(** X5.  A call makes exactly one [fetch], the one [sent] describes, and
    adds it at the end of the log; the exception is an [addAnnotation]
    whose guard fails (no user, or a [canUpdate] that is missing or falsy),
    which makes none. *)
Theorem one_fetch_per_call (c : Call) (env : Env) (s : State) :
  fetched (after c env s)
  = if sends c s then (fetched s ++ [sent c env s])%list else fetched s.
Proof.
  destruct c; try apply addAnnotation_log; cbn [sends];
    apply call_sends; discriminate.
Qed.

Lemma run_snoc (cs : list (Call * Env)) (c : Call) (env : Env) (s : State) :
  run (cs ++ [(c, env)])%list s = after c env (run cs s).
Proof. unfold run. now rewrite fold_left_app. Qed.

(** X6.  Along a run nothing is ever taken out of the log or changed in
    it: the log after the run is the log before followed by at most one
    request per call. *)
Theorem run_log (cs : list (Call * Env)) (s : State) :
  exists new,
    fetched (run cs s) = (fetched s ++ new)%list
    /\ (length new <= length cs)%nat.
Proof.
  induction cs as [|[c env] cs IH] using rev_ind.
  - exists []. split; [now rewrite List.app_nil_r | reflexivity].
  - destruct IH as (new & Hn & Hl).
    rewrite run_snoc, List.length_app. cbn [length].
    assert (H : fetched (after c env (run cs s))
                = (fetched (run cs s) ++ [sent c env (run cs s)])%list
                  \/ fetched (after c env (run cs s)) = fetched (run cs s)).
    { destruct c; try (left; apply call_sends; discriminate).
      rewrite addAnnotation_log. destruct (truthy _); [now left | now right]. }
    destruct H as [H|H]; rewrite H, Hn.
    + exists (new ++ [sent c env (run cs s)])%list.
      split; [now rewrite List.app_assoc|]. rewrite List.length_app. cbn. lia.
    + exists new. split; [reflexivity | lia].
Qed.

(** ** What no call ever changes *)

Ltac frame_request :=
  match goal with
  | |- context [request ?e ?m ?p ?env ?s0] =>
      let F := fresh "F" in
      pose proof (request_frame e m p env s0) as F; cbn zeta in F;
      destruct (request e m p env s0) as [[?result|?e'] ?s']
  end.

Lemma call_keeps (c : Call) (env : Env) (s : State) (k : string) :
  serverEndpoint (this (after c env s)) = serverEndpoint (this s)
  /\ (k <> "annotation-key" -> jar (after c env s) !! k = jar s !! k).
Proof.
  destruct c; open_call; try destruct (truthy (guard_value s));
    try frame_request; cbn in *;
    try match goal with
        | F : _ /\ _ |- _ => destruct F as (Fj & _ & Fe & _)
        end;
    try match goal with
        | |- context [js_in ?key ?v] =>
            destruct (js_in key v) as [?|[|]] eqn:Hin
        end; cbn;
    try match goal with
        | Hin : js_in "error" ?v = inr false
          |- context [js_get ?v "session"] =>
            destruct (js_in_get "error" "session" v false Hin) as [session Hs];
            destruct (js_in_get "error" "data" v false Hin) as [data Hd];
            rewrite Hs, Hd; cbn
        end;
    (split;
     [congruence
     |intros Hk;
      rewrite ?lookup_delete_ne, ?lookup_insert_ne by congruence;
      congruence]).
Qed.

(** X7.  Whatever calls are made and whatever the server answers, the
    service keeps the base URL it was constructed with and never writes or
    removes a cookie other than [annotation-key]; in particular the API key
    it sends stays the one of the [user-token] cookie. *)
Theorem run_keeps (cs : list (Call * Env)) (s : State) (k : string) :
  k <> "annotation-key" ->
  serverEndpoint (this (run cs s)) = serverEndpoint (this s)
  /\ jar (run cs s) !! k = jar s !! k
  /\ userApiKey_of (run cs s) = userApiKey_of s.
Proof.
  intros Hk. revert s.
  induction cs as [|[c env] cs IH]; intros s; [now repeat split|].
  rewrite run_cons.
  destruct (IH (after c env s)) as (He & Hj & Hu).
  destruct (call_keeps c env s k) as [He' Hj'].
  destruct (call_keeps c env s "user-token") as [_ Ht].
  rewrite He, Hj, Hu, He', Hj' by exact Hk.
  repeat split. unfold userApiKey_of. now rewrite Ht.
Qed.

Lemma run_keeps_witness :
  serverEndpoint (this (run failing_read_after_login with_token)) = "https://x/y"
  /\ jar (run failing_read_after_login with_token) !! "user-token"
     = jar with_token !! "user-token"
  /\ userApiKey_of (run failing_read_after_login with_token) = "k 1".
Proof.
  apply (run_keeps failing_read_after_login with_token "user-token").
  discriminate.
Defined.

(** ** From [authenticate] to the next request *)

Lemma or_empty_Some (v : string) : or_empty (Some v) = v.
Proof. unfold or_empty. now destruct (String.eqb_spec v EmptyString). Qed.

(** X8.  The session of a successful [authenticate] is the one the next
    request is built with, whatever its endpoint, method and parameters,
    next to the unchanged API key; after an [authenticate] that failed
    (answer outside 2xx, or 2xx body with an [error] key) the next request
    is built with an empty session, even if a session cookie was there
    before. *)
Theorem session_of_next_request (env : Env) (s : State)
    (endpoint : string) (method : Method) (parameters : entries) :
  (forall b session,
      answers_ok env (sent Authenticate env s) b ->
      js_in "error" b = inr false ->
      js_get b "session" = inr session ->
      request_of (after Authenticate env s) endpoint method parameters
      = build_request (serverEndpoint (this s)) endpoint method parameters
                      (userApiKey_of s) (ToString session))
  /\ (forall b,
         answers_ok env (sent Authenticate env s) b ->
         js_in "error" b = inr true ->
         request_of (after Authenticate env s) endpoint method parameters
         = build_request (serverEndpoint (this s)) endpoint method parameters
                         (userApiKey_of s) EmptyString)
  /\ (forall resp,
         answers_not_ok env (sent Authenticate env s) resp ->
         request_of (after Authenticate env s) endpoint method parameters
         = build_request (serverEndpoint (this s)) endpoint method parameters
                         (userApiKey_of s) EmptyString).
Proof.
  repeat split.
  - intros b session Ha Hin Hs.
    destruct (js_in_get "error" "data" b false Hin) as [data Hd].
    unfold after, call.
    rewrite (authenticate_success env s b session data Ha Hin Hs Hd).
    unfold request_of, userApiKey_of, sessionKey_of, with_currentUser, with_jar,
      logged, with_currentError.
    cbn [jar this serverEndpoint snd].
    rewrite lookup_insert_eq, lookup_insert_ne by discriminate.
    change (cookie_value <$> Some (session_cookie session))
      with (Some (ToString session)).
    now rewrite or_empty_Some.
  - intros b Ha Hin. unfold after, call.
    rewrite (authenticate_error_body env s b Ha Hin).
    unfold request_of, userApiKey_of, sessionKey_of, with_currentUser, with_jar,
      logged, with_currentError.
    cbn [jar this serverEndpoint snd].
    now rewrite lookup_delete_eq, lookup_delete_ne by discriminate.
  - intros resp Ha. unfold after, call.
    rewrite (authenticate_not_ok env s resp Ha).
    unfold request_of, userApiKey_of, sessionKey_of, with_currentUser, with_jar,
      logged, with_currentError.
    cbn [jar this serverEndpoint snd].
    now rewrite lookup_delete_eq, lookup_delete_ne by discriminate.
Qed.

Lemma session_of_next_request_witness :
  url (request_of (after Authenticate login_ok with_token) "items/" GET
                  [("resource", JStr "r1")])
  = "https://x/y/items/?resource=%22r1%22&key=k%201&session=abc"
  /\ url (request_of (after Authenticate login_refused with_session) "items/" GET
                     [("resource", JStr "r1")])
     = "https://x/y/items/?resource=%22r1%22&key=&session="
  /\ url (request_of (after Authenticate server_down with_session) "items/" GET
                     [("resource", JStr "r1")])
     = "https://x/y/items/?resource=%22r1%22&key=&session=".
Proof.
  split; [|split].
  - destruct (session_of_next_request login_ok with_token "items/" GET
                [("resource", JStr "r1")]) as (H & _).
    rewrite (H (JObj [("session", JStr "abc"); ("data", A_user)]) (JStr "abc"));
      [reflexivity | eexists; repeat split; reflexivity
      | reflexivity | reflexivity].
  - destruct (session_of_next_request login_refused with_session "items/" GET
                [("resource", JStr "r1")]) as (_ & H & _).
    rewrite (H (JObj [("error", JStr "unknown user")]));
      [reflexivity | eexists; repeat split; reflexivity | reflexivity].
  - destruct (session_of_next_request server_down with_session "items/" GET
                [("resource", JStr "r1")]) as (_ & _ & H).
    rewrite (H {| status := 500; statusText := "Internal Server Error";
                  json := None |}); [reflexivity | split; reflexivity].
Defined.

(** ** No write without a login *)

Lemma guard_needs_user (s : State) :
  truthy (guard_value s) = true -> currentUser (this s) <> JNull.
Proof.
  unfold guard_value. cbn zeta. intros H E. rewrite E in H. discriminate H.
Qed.

Lemma sent_POST (c : Call) (env : Env) (s : State) :
  method (sent c env s) = POST -> exists a, c = AddAnnotation a.
Proof. destruct c; cbn; try discriminate; eauto. Qed.

(** X9.  In every run that starts from a newly constructed service, a
    POST found in the log was preceded by an [authenticate] that the server
    answered 2xx with a body without [error] key: no annotation is ever
    posted before a login has succeeded. *)
Theorem post_needs_login (serverEndpoint : string) (cookies : gmap string Cookie)
    (cs : list (Call * Env)) (r : Request) :
  In r (fetched (run cs (fresh serverEndpoint cookies))) ->
  method r = POST ->
  exists pre env post b,
    cs = (pre ++ (Authenticate, env) :: post)%list
    /\ answers_ok env (sent Authenticate env (run pre (fresh serverEndpoint cookies))) b
    /\ js_in "error" b = inr false.
Proof.
  set (s0 := fresh serverEndpoint cookies).
  assert (Inv : forall cs,
             (currentUser (this (run cs s0)) <> JNull
              \/ exists r, In r (fetched (run cs s0)) /\ method r = POST) ->
             exists pre env post b,
               cs = (pre ++ (Authenticate, env) :: post)%list
               /\ answers_ok env (sent Authenticate env (run pre s0)) b
               /\ js_in "error" b = inr false).
  { clear cs r. induction cs as [|[c env] cs IH] using rev_ind.
    - intros [H|(r & [] & _)]. now destruct H.
    - rewrite run_snoc. set (s1 := run cs s0) in *.
      assert (Old : currentUser (this s1) <> JNull
                    \/ (exists r, In r (fetched s1) /\ method r = POST) ->
                    exists pre env0 post b,
                      (cs ++ [(c, env)])%list
                      = (pre ++ (Authenticate, env0) :: post)%list
                      /\ answers_ok env0 (sent Authenticate env0 (run pre s0)) b
                      /\ js_in "error" b = inr false).
      { intros H. destruct (IH H) as (pre & env0 & post & b & -> & Hb).
        exists pre, env0, (post ++ [(c, env)])%list, b.
        split; [now rewrite <- List.app_assoc | exact Hb]. }
      intros [Hu|(r & Hr & Hm)].
      + destruct c;
          try (apply Old; left;
               rewrite currentUser_frame in Hu by discriminate; exact Hu).
        * destruct (authenticate_outcome env s1) as [H|(_ & b & Ha & Hin & _)];
            [contradiction|].
          exists cs, env, [], b. split; [reflexivity | now split].
        * now rewrite unauthenticate_currentUser in Hu.
      + assert (H : In r (fetched s1)
                    \/ (r = sent c env s1 /\ sends c s1 = true)).
        { destruct c;
            try (match type of Hr with
                 | In _ (fetched (after ?c0 _ _)) =>
                     rewrite (proj1 (call_sends c0 env s1 ltac:(discriminate)))
                       in Hr
                 end;
                 apply in_app_or in Hr; destruct Hr as [Hr|[<-|[]]];
                 [now left | now right]).
          rewrite addAnnotation_log in Hr. cbn [sends].
          destruct (truthy (guard_value s1)); [|now left].
          apply in_app_or in Hr. destruct Hr as [Hr|[<-|[]]];
            [now left | now right]. }
        destruct H as [H|[-> Hs]]; [apply Old; right; eauto|].
        destruct (sent_POST c env s1 Hm) as [a ->]. cbn [sends] in Hs.
        apply Old. left. now apply guard_needs_user. }
  intros Hr Hm. apply Inv. right. eauto.
Qed.

Lemma post_needs_login_witness :
  exists pre env post b,
    login_then_add = (pre ++ (Authenticate, env) :: post)%list
    /\ answers_ok env (sent Authenticate env (run pre (fresh "https://x/y" ∅))) b
    /\ js_in "error" b = inr false.
Proof.
  apply (post_needs_login "https://x/y" ∅ login_then_add
           (sent (AddAnnotation note) add_ok
                 (run [(Authenticate, login_ok)] (fresh "https://x/y" ∅)))).
  - vm_compute. right. left. reflexivity.
  - reflexivity.
Defined.

(** ** The shape of a query string *)

Lemma count_char_app (c : ascii) (s t : string) :
  count_char c (s +:+ t) = (count_char c s + count_char c t)%nat.
Proof.
  induction s as [|c' s IH]; [reflexivity|].
  rewrite app_cons. cbn [count_char]. rewrite IH. lia.
Qed.

Lemma string_forall_app (p : ascii -> bool) (s t : string) :
  string_forall p (s +:+ t) = string_forall p s && string_forall p t.
Proof.
  induction s as [|c' s IH]; [reflexivity|].
  rewrite app_cons. cbn [string_forall]. rewrite IH. now rewrite andb_assoc.
Qed.

Lemma string_forall_impl (p q : ascii -> bool) (s : string) :
  (forall c, p c = true -> q c = true) ->
  string_forall p s = true -> string_forall q s = true.
Proof.
  intros Hpq. induction s as [|c s IH]; [reflexivity|].
  cbn [string_forall]. rewrite !andb_true_iff. intros [H1 H2]. auto.
Qed.

(** A character that fails the test of all characters of a string does not
    occur in it. *)
Lemma count_char_forall (p : ascii -> bool) (c : ascii) (s : string) :
  p c = false -> string_forall p s = true -> count_char c s = 0%nat.
Proof.
  intros Hc. induction s as [|c' s IH]; [reflexivity|].
  cbn [string_forall count_char]. rewrite andb_true_iff. intros [H1 H2].
  rewrite (IH H2).
  destruct (Ascii.eqb_spec c c') as [->|_]; [congruence | reflexivity].
Qed.

Lemma encode_unit_chars (c : ascii) :
  string_forall encoded_char (Uri.encode_unit c) = true.
Proof. destruct c as [[] [] [] [] [] [] [] []]; reflexivity. Qed.

(** [encodeURIComponent] yields unreserved characters and [%] only. *)
Lemma encodeURIComponent_chars (s : string) :
  string_forall encoded_char (Uri.encodeURIComponent s) = true.
Proof.
  induction s as [|c s IH]; [reflexivity|].
  cbn [Uri.encodeURIComponent].
  now rewrite string_forall_app, encode_unit_chars, IH.
Qed.

Lemma join_amp_chars (parts : list string) :
  Forall (fun p => string_forall query_char p = true) parts ->
  string_forall query_char (JsString.join "&" parts) = true.
Proof.
  induction 1 as [|p parts Hp _ IH]; [reflexivity|].
  destruct parts as [|p' parts]; [exact Hp|].
  change (JsString.join "&" (p :: p' :: parts))
    with (p +:+ "&" +:+ JsString.join "&" (p' :: parts)).
  now rewrite !string_forall_app, Hp, IH.
Qed.

Lemma join_amp_count (c : ascii) (parts : list string) :
  Forall (fun p => count_char c p = (if Ascii.eqb c "=" then 1 else 0)%nat) parts ->
  count_char c (JsString.join "&" parts)
  = ((if Ascii.eqb c "=" then length parts else 0)
     + (if Ascii.eqb c "&" then length parts - 1 else 0))%nat.
Proof.
  induction 1 as [|p parts Hp _ IH]; [now destruct (Ascii.eqb c "="), (Ascii.eqb c "&")|].
  destruct parts as [|p' parts].
  - cbn [JsString.join length]. rewrite Hp.
    destruct (Ascii.eqb c "="), (Ascii.eqb c "&"); reflexivity.
  - change (JsString.join "&" (p :: p' :: parts))
      with (p +:+ "&" +:+ JsString.join "&" (p' :: parts)).
    rewrite !count_char_app, Hp, IH. cbn [count_char length].
    destruct (Ascii.eqb c "="), (Ascii.eqb c "&"); lia.
Qed.

Lemma pair_chars (k v : string) :
  string_forall Uri.unreserved k = true ->
  string_forall query_char (k +:+ "=" +:+ Uri.encodeURIComponent v) = true
  /\ count_char "&" (k +:+ "=" +:+ Uri.encodeURIComponent v) = 0%nat
  /\ count_char "=" (k +:+ "=" +:+ Uri.encodeURIComponent v) = 1%nat.
Proof.
  intros Hk.
  assert (Hv := encodeURIComponent_chars v).
  assert (Hk' : string_forall encoded_char k = true).
  { revert Hk. apply string_forall_impl. intros c Hc. unfold encoded_char.
    now rewrite Hc. }
  repeat split.
  - rewrite !string_forall_app.
    rewrite (string_forall_impl encoded_char query_char k),
            (string_forall_impl encoded_char query_char (Uri.encodeURIComponent v));
      try reflexivity; try assumption;
      intros c Hc; unfold query_char; now rewrite Hc.
  - rewrite !count_char_app.
    rewrite (count_char_forall encoded_char "&" k),
            (count_char_forall encoded_char "&" (Uri.encodeURIComponent v));
      try reflexivity; assumption.
  - rewrite !count_char_app.
    rewrite (count_char_forall encoded_char "=" k),
            (count_char_forall encoded_char "=" (Uri.encodeURIComponent v));
      try reflexivity; assumption.
Qed.

(** X10.  When the keys of the parameters are made of unreserved
    characters, as the keys the service uses are, the query string of a GET
    has exactly one [&] between consecutive pairs and one [=] in each pair,
    the two credentials included, and no character other than unreserved
    ones, [%], [&] and [=]: no parameter value and no cookie can add a
    pair, start a fragment or end the query. *)
Theorem query_shape (base endpoint : string) (parameters : entries)
    (userApiKey sessionKey : string) :
  Forall (fun kv => string_forall Uri.unreserved (fst kv) = true) parameters ->
  exists q,
    url (build_request base endpoint GET parameters userApiKey sessionKey)
    = (base +:+ "/" +:+ endpoint) +:+ "?" +:+ q
    /\ count_char "&" q = S (length parameters)
    /\ count_char "=" q = S (S (length parameters))
    /\ string_forall query_char q = true.
Proof.
  intros Hkeys. eexists. split; [reflexivity|].
  set (pairs := (map query_pair parameters
                 ++ ["key=" +:+ Uri.encodeURIComponent userApiKey;
                     "session=" +:+ Uri.encodeURIComponent sessionKey])%list).
  assert (Hp : Forall (fun p => string_forall query_char p = true
                                /\ count_char "&" p = 0%nat
                                /\ count_char "=" p = 1%nat) pairs).
  { subst pairs. apply List.Forall_app. split.
    - apply List.Forall_map. revert Hkeys. apply List.Forall_impl.
      intros [k v] Hk. unfold query_pair. cbn [fst snd] in *.
      now apply pair_chars.
    - repeat constructor;
        try (apply (pair_chars "key" userApiKey); reflexivity);
        try (apply (pair_chars "session" sessionKey); reflexivity). }
  assert (Hl : length pairs = S (S (length parameters))).
  { subst pairs. rewrite List.length_app, length_map. cbn. lia. }
  repeat split.
  - rewrite (join_amp_count "&" pairs).
    + cbn. lia.
    + revert Hp. apply List.Forall_impl. now intros p (_ & H & _).
  - rewrite (join_amp_count "=" pairs).
    + cbn. lia.
    + revert Hp. apply List.Forall_impl. now intros p (_ & _ & H).
  - apply join_amp_chars. revert Hp. apply List.Forall_impl. now intros p (H & _).
Qed.

Lemma query_shape_witness :
  exists q,
    url (build_request "https://x/y" "annotations/" GET two_parameters
                       "k&1" "s=2")
    = ("https://x/y" +:+ "/" +:+ "annotations/") +:+ "?" +:+ q
    /\ count_char "&" q = 3%nat
    /\ count_char "=" q = 4%nat
    /\ string_forall query_char q = true.
Proof.
  apply (query_shape "https://x/y" "annotations/" two_parameters "k&1" "s=2").
  repeat constructor.
Defined.

(** ** The URL tells the read call *)

Section Injectivity.

#[local] Arguments String.append !_ _ / : simpl nomatch.

Lemma app_assoc_s (a b c : string) : (a +:+ b) +:+ c = a +:+ (b +:+ c).
Proof.
  induction a as [|x a IH]; [reflexivity|].
  rewrite !app_cons. now rewrite IH.
Qed.

Lemma app_inv_head_s (a x y : string) : a +:+ x = a +:+ y -> x = y.
Proof.
  induction a as [|c a IH]; [easy|].
  rewrite !app_cons. intros [= H]. auto.
Qed.

Lemma uri_unit_encode (c : ascii) (r : string) :
  Decode.uri_unit (Uri.encode_unit c +:+ r) = Some (c, r).
Proof. destruct c as [[] [] [] [] [] [] [] []]; reflexivity. Qed.

Lemma json_unit_quote (c : ascii) (r : string) :
  Decode.json_unit (Json.quote_char c +:+ r) = Some (c, r).
Proof. destruct c as [[] [] [] [] [] [] [] []]; reflexivity. Qed.

(** Two encoded strings, each followed by something that is not the start
    of a unit, are equal only if they encode the same string. *)
Lemma encodeURIComponent_inj (a b t t' : string) :
  Decode.uri_unit t = None -> Decode.uri_unit t' = None ->
  Uri.encodeURIComponent a +:+ t = Uri.encodeURIComponent b +:+ t' ->
  a = b /\ t = t'.
Proof.
  intros Ht Ht'. revert b.
  induction a as [|c a IH]; intros [|c' b]; cbn [Uri.encodeURIComponent];
    rewrite ?app_assoc_s, ?app_nil_l; intros H.
  - now split.
  - rewrite H, uri_unit_encode in Ht. discriminate.
  - rewrite <- H, uri_unit_encode in Ht'. discriminate.
  - apply (f_equal Decode.uri_unit) in H.
    rewrite !uri_unit_encode in H. injection H as -> H.
    destruct (IH b H) as [-> ->]. now split.
Qed.

Lemma quote_chars_inj (a b t t' : string) :
  Decode.json_unit t = None -> Decode.json_unit t' = None ->
  Json.quote_chars a +:+ t = Json.quote_chars b +:+ t' ->
  a = b /\ t = t'.
Proof.
  intros Ht Ht'. revert b.
  induction a as [|c a IH]; intros [|c' b]; cbn [Json.quote_chars];
    rewrite ?app_assoc_s, ?app_nil_l; intros H.
  - now split.
  - rewrite H, json_unit_quote in Ht. discriminate.
  - rewrite <- H, json_unit_quote in Ht'. discriminate.
  - apply (f_equal Decode.json_unit) in H.
    rewrite !json_unit_quote in H. injection H as -> H.
    destruct (IH b H) as [-> ->]. now split.
Qed.

Lemma quote_inj (a b : string) : Json.quote a = Json.quote b -> a = b.
Proof.
  unfold Json.quote. intros H. apply app_inv_head_s in H.
  now destruct (quote_chars_inj a b Json.dquote Json.dquote eq_refl eq_refl H).
Qed.

(** The value of a query pair, followed by the next pair or by nothing,
    tells the string it was made from. *)
Lemma value_inj (a b t t' : string) :
  Decode.uri_unit t = None -> Decode.uri_unit t' = None ->
  Uri.encodeURIComponent (Json.quote a) +:+ t
  = Uri.encodeURIComponent (Json.quote b) +:+ t' ->
  a = b /\ t = t'.
Proof.
  intros Ht Ht' H.
  destruct (encodeURIComponent_inj _ _ t t' Ht Ht' H) as [Hq ->].
  split; [now apply quote_inj | reflexivity].
Qed.

Lemma string_tail_eq (c c' : ascii) (x y : string) :
  String c x = String c' y -> x = y.
Proof. now intros [= _ H]. Qed.

Ltac peel H :=
  repeat match type of H with
         | String _ _ = String _ _ => apply string_tail_eq in H
         end.

Ltac url_eq H :=
  cbn [sent request_of build_request url] in H;
  rewrite !app_assoc_s in H; apply app_inv_head_s in H;
  cbn [map query_pair fst snd JsString.join default Json.stringify
       String.append app Datatypes.id] in H.

(** X11.  From one state, two read calls that send the same URL are the
    same call with the same arguments: the four endpoints differ, and the
    identifiers can be read back from the query string. *)
Theorem read_url_injective (c1 c2 : Call) (env1 env2 : Env) (s : State) :
  is_read c1 = true -> is_read c2 = true ->
  url (sent c1 env1 s) = url (sent c2 env2 s) ->
  c1 = c2.
Proof.
  intros H1 H2 H.
  destruct c1; try discriminate H1; destruct c2; try discriminate H2;
    url_eq H; try discriminate H; peel H.
  - apply value_inj in H; [|reflexivity..]. now destruct H as [-> _].
  - apply value_inj in H; [|reflexivity..]. now destruct H as [-> _].
  - apply value_inj in H; [|reflexivity..]. destruct H as [-> H].
    peel H.
    apply value_inj in H; [|reflexivity..]. now destruct H as [-> _].
  - apply value_inj in H; [|reflexivity..]. now destruct H as [-> _].
Qed.

Lemma read_url_injective_witness :
  ItemAnnotations "r1" "i 1" = ItemAnnotations "r1" "i 1".
Proof.
  apply (read_url_injective (ItemAnnotations "r1" "i 1")
           (ItemAnnotations "r1" "i 1") items_ok server_down with_session);
    reflexivity.
Defined.

End Injectivity.

(** ** The constructor on every base URL *)

(** X12.  The constructor takes off one trailing slash when there is one
    and changes nothing otherwise, whatever the string: the empty string
    and ["/"] both give an empty base; both slots start as [null]. *)
Theorem constructor_cases (s : string) :
  ((exists t, s = t +:+ "/" /\ serverEndpoint (constructor s) = t)
   \/ ((forall t, s <> t +:+ "/") /\ serverEndpoint (constructor s) = s))
  /\ currentError (constructor s) = JNull
  /\ currentUser (constructor s) = JNull.
Proof.
  split; [|split; reflexivity].
  destruct (String.eqb_spec (JsString.slice s (-1) None) "/") as [E|N].
  - left. destruct (slice_last_slash s E) as [t ->].
    exists t. split; [reflexivity | apply constructor_slash].
  - right.
    assert (Hs : forall t, s <> t +:+ "/").
    { intros t ->. now rewrite slice_last_app in N. }
    split; [exact Hs | now apply constructor_no_slash].
Qed.

(** * The first revision *)

(** ** Splitting a string *)

Section Split.

#[local] Arguments String.append !_ _ / : simpl nomatch.

Lemma prefix_app (a r : string) : String.prefix a (a +:+ r) = true.
Proof.
  induction a as [|c a IH]; [now destruct r|].
  cbn. destruct (ascii_dec c c); [exact IH | congruence].
Qed.

Lemma split_from_skip (sep x r : string) :
  Rev0.split_from sep (String.length x) (x +:+ r) = Rev0.split_from sep 0 r.
Proof. induction x as [|c x IH]; [reflexivity | exact IH]. Qed.

(** At an occurrence of the separator a piece ends. *)
Lemma split_from_sep (sep r : string) :
  sep <> EmptyString ->
  Rev0.split_from sep 0 (sep +:+ r)
  = (EmptyString, let (p, ps) := Rev0.split_from sep 0 r in p :: ps).
Proof.
  destruct sep as [|c sep]; [congruence|]. intros _.
  change (String c sep +:+ r) with (String c (sep +:+ r)).
  cbn [Rev0.split_from].
  change (String c (sep +:+ r)) with (String c sep +:+ r).
  rewrite prefix_app.
  replace (String.length (String c sep) - 1)%nat with (String.length sep)
    by (cbn [String.length]; lia).
  now rewrite split_from_skip.
Qed.

(** Where no occurrence starts the piece goes on. *)
Lemma split_from_free (sep a b : string) :
  occ_free sep a b ->
  Rev0.split_from sep 0 (a +:+ b)
  = let (p, ps) := Rev0.split_from sep 0 b in (a +:+ p, ps).
Proof.
  induction a as [|c a IH]; cbn [occ_free].
  - intros _. cbn. now destruct (Rev0.split_from sep 0 b).
  - intros [Hp Hf].
    change (String c a +:+ b) with (String c (a +:+ b)).
    cbn [Rev0.split_from]. rewrite Hp, (IH Hf).
    now destruct (Rev0.split_from sep 0 b).
Qed.

Lemma occ_free_app (sep a a' b : string) :
  occ_free sep a (a' +:+ b) -> occ_free sep a' b ->
  occ_free sep (a +:+ a') b.
Proof.
  induction a as [|c a IH]; cbn [occ_free]; [now intros _|].
  intros [Hp Hf] H'.
  change (String c a +:+ a') with (String c (a +:+ a')). cbn [occ_free].
  rewrite app_assoc_s. split; [exact Hp | now apply IH].
Qed.

(** A separator that starts with [c] does not occur where there is no
    [c]. *)
Lemma occ_free_plain (c : ascii) (sep a b : string) :
  count_char c a = 0%nat -> occ_free (String c sep) a b.
Proof.
  induction a as [|c' a IH]; cbn [count_char occ_free]; [easy|].
  destruct (Ascii.eqb_spec c c') as [->|N]; [discriminate|].
  intros H. split; [|now apply IH].
  cbn. destruct (ascii_dec c c'); [contradiction | reflexivity].
Qed.

(** ** Reading a cookie *)

Lemma led_text_value (cookies : list (string * string)) :
  cookies <> [] -> "; " +:+ Rev0.cookie_text cookies = led_text cookies.
Proof.
  unfold Rev0.cookie_text.
  induction cookies as [|[n v] cookies IH]; [congruence|]. intros _.
  destruct cookies as [|nv cookies].
  - cbn. now rewrite app_nil_r.
  - change (led_text ((n, v) :: nv :: cookies))
      with (("; " +:+ n +:+ "=" +:+ v) +:+ led_text (nv :: cookies)).
    rewrite <- IH by discriminate.
    cbn [map JsString.join fst snd]. cbn. now rewrite !app_assoc_s.
Qed.

(** With no [=] in the names, [n=] starts [n'=...] only when the names
    are the same. *)
Lemma prefix_name (n n' x : string) :
  count_char "=" n = 0%nat -> count_char "=" n' = 0%nat ->
  String.prefix (n +:+ "=") (n' +:+ "=" +:+ x) = true -> n = n'.
Proof.
  revert n'. induction n as [|c n IH]; intros [|c' n']; cbn [count_char].
  - reflexivity.
  - destruct (Ascii.eqb_spec "="%char c') as [<-|N]; [discriminate|].
    intros _ _. cbn [String.append String.prefix].
    destruct (ascii_dec "=" c'); [contradiction | discriminate].
  - destruct (Ascii.eqb_spec "="%char c) as [<-|N]; [discriminate|].
    intros _ _. cbn [String.append String.prefix].
    destruct (ascii_dec c "="); [congruence | discriminate].
  - destruct (Ascii.eqb_spec "="%char c) as [<-|N]; [discriminate|].
    destruct (Ascii.eqb_spec "="%char c') as [<-|N']; [discriminate|].
    cbn [Nat.add]. intros Hn Hn'. cbn [String.append String.prefix].
    destruct (ascii_dec c c') as [<-|]; [|discriminate].
    intros H. f_equal. now apply (IH n').
Qed.

Lemma occ_free_entry (n n' v' b : string) :
  n <> n' ->
  count_char "=" n = 0%nat -> count_char "=" n' = 0%nat ->
  count_char ";" n' = 0%nat -> count_char ";" v' = 0%nat ->
  occ_free ("; " +:+ n +:+ "=") ("; " +:+ n' +:+ "=" +:+ v') b.
Proof.
  intros Hne Hn Hn' Hs Hv.
  change ("; " +:+ n +:+ "=") with (String ";" (String " " (n +:+ "="))).
  change ("; " +:+ n' +:+ "=" +:+ v')
    with (String ";" (String " " (n' +:+ "=" +:+ v'))).
  cbn [occ_free]. split; [|split].
  - cbn [String.prefix String.append].
    destruct (ascii_dec ";" ";"); [|congruence].
    destruct (ascii_dec " " " "); [|congruence].
    rewrite app_assoc_s.
    change (String "=" v' +:+ b) with ("=" +:+ (v' +:+ b)).
    destruct (String.prefix (n +:+ "=") (n' +:+ "=" +:+ v' +:+ b)) eqn:P;
      [|reflexivity].
    destruct Hne. now apply (prefix_name n n' (v' +:+ b)).
  - cbn [String.prefix]. now destruct (ascii_dec ";" " ").
  - apply occ_free_plain.
    change ("=" +:+ v') with (String "=" v').
    rewrite count_char_app. cbn [count_char]. now rewrite Hs, Hv.
Qed.

Lemma occ_free_led (n b : string) (cookies : list (string * string)) :
  Rev0.well_formed cookies ->
  count_char "=" n = 0%nat ->
  ~ In n (map fst cookies) ->
  occ_free ("; " +:+ n +:+ "=") (led_text cookies) b.
Proof.
  intros Hwf Hn. induction Hwf as [|[n' v'] cookies (Hs & He & Hv) _ IH];
    cbn [map fst In led_text]; [easy|].
  intros Hin. apply occ_free_app.
  - apply occ_free_entry; try assumption. intros ->. tauto.
  - apply IH. tauto.
Qed.


Lemma led_text_app (pre post : list (string * string)) :
  led_text (pre ++ post) = led_text pre +:+ led_text post.
Proof.
  induction pre as [|[n v] pre IH]; [reflexivity|].
  change (led_text (((n, v) :: pre) ++ post))
    with (("; " +:+ n +:+ "=" +:+ v) +:+ led_text (pre ++ post)).
  change (led_text ((n, v) :: pre))
    with (("; " +:+ n +:+ "=" +:+ v) +:+ led_text pre).
  now rewrite IH, !app_assoc_s.
Qed.

(** After a value comes the end or the separator of the next cookie. *)
Lemma split_led_semicolon (cookies : list (string * string)) :
  fst (Rev0.split_from ";" 0 (led_text cookies)) = EmptyString.
Proof. destruct cookies as [|[n v] cookies]; reflexivity. Qed.

Lemma split_by_name (s n : string) :
  Rev0.split s ("; " +:+ n +:+ "=")
  = let (p, ps) := Rev0.split_from ("; " +:+ n +:+ "=") 0 s in p :: ps.
Proof. reflexivity. Qed.

Lemma split_by_semicolon (s : string) :
  Rev0.split s ";" = let (p, ps) := Rev0.split_from ";" 0 s in p :: ps.
Proof. reflexivity. Qed.

(** A cookie whose name is not used twice cuts the list in two parts
    without that name. *)
Lemma in_split_unique (cookies : list (string * string)) (n v : string) :
  List.NoDup (map fst cookies) ->
  In (n, v) cookies ->
  exists pre post,
    cookies = (pre ++ (n, v) :: post)%list
    /\ ~ In n (map fst pre) /\ ~ In n (map fst post).
Proof.
  intros Hnd Hin.
  destruct (in_split _ _ Hin) as (pre & post & ->).
  exists pre, post. split; [reflexivity|].
  rewrite map_app in Hnd. cbn [map fst] in Hnd.
  apply List.NoDup_remove_2 in Hnd. rewrite in_app_iff in Hnd. tauto.
Qed.

(** The cookie text around a cookie whose name occurs nowhere else. *)
Lemma getCookie_at (pre post : list (string * string)) (n v : string) :
  Rev0.well_formed pre -> Rev0.well_formed post ->
  count_char "=" n = 0%nat -> count_char ";" v = 0%nat ->
  ~ In n (map fst pre) -> ~ In n (map fst post) ->
  Rev0.getCookie (Rev0.cookie_text (pre ++ (n, v) :: post)) n = v.
Proof.
  intros Wpre Wpost He Hv Hpre Hpost.
  unfold Rev0.getCookie. cbn zeta.
  rewrite led_text_value by (now destruct pre).
  rewrite split_by_name, split_by_semicolon.
  rewrite led_text_app.
  change (led_text ((n, v) :: post))
    with (("; " +:+ n +:+ "=" +:+ v) +:+ led_text post).
  replace (("; " +:+ n +:+ "=" +:+ v) +:+ led_text post)
    with (("; " +:+ n +:+ "=") +:+ ((v +:+ led_text post) +:+ EmptyString))
    by now rewrite app_nil_r, !app_assoc_s.
  rewrite split_from_free by (now apply occ_free_led).
  rewrite split_from_sep by discriminate.
  rewrite split_from_free
    by (apply occ_free_app;
        [now apply occ_free_plain | now apply occ_free_led]).
  cbn [Rev0.split_from length Nat.eqb List.last].
  rewrite !app_nil_r.
  rewrite split_from_free by (now apply occ_free_plain).
  pose proof (split_led_semicolon post) as Hp.
  destruct (Rev0.split_from ";" 0 (led_text post)) as [p ps].
  cbn [fst] in Hp. subst p. cbn [head]. rewrite app_nil_r.
  apply or_empty_Some.
Qed.

(** X13.  On the text of well-formed cookies with distinct names,
    [getCookie] returns the value of the cookie asked for, be it first,
    last or in the middle, and whatever [=] the value contains. *)
Theorem getCookie_present (cookies : list (string * string)) (n v : string) :
  Rev0.well_formed cookies ->
  List.NoDup (map fst cookies) ->
  In (n, v) cookies ->
  Rev0.getCookie (Rev0.cookie_text cookies) n = v.
Proof.
  intros Hwf Hnd Hin.
  destruct (in_split_unique cookies n v Hnd Hin) as (pre & post & -> & Hpre & Hpost).
  unfold Rev0.well_formed in Hwf.
  apply List.Forall_app in Hwf. destruct Hwf as [Wpre Wrest].
  apply List.Forall_cons_iff in Wrest.
  destruct Wrest as [(_ & He & Hv) Wpost]. cbn [fst snd] in *.
  now apply getCookie_at.
Qed.

Lemma getCookie_present_witness :
  Rev0.getCookie (Rev0.cookie_text three_cookies) "user-token" = "k=1".
Proof.
  apply (getCookie_present three_cookies "user-token" "k=1").
  - repeat constructor.
  - repeat constructor; cbn; intuition discriminate.
  - cbn. tauto.
Defined.



End Split.

(** ** [authenticate] in the first revision *)

Lemma Rev0_request_eq (document_cookie endpoint : string) (method : Method)
    (parameters : entries) (env : Env) (s : State) :
  Rev0.request document_cookie endpoint method parameters env s =
  let r := Rev0.build_request (serverEndpoint (this s)) endpoint method
             parameters (Rev0.getCookie document_cookie "user-token") in
  match fetch env r with
  | None => (Rejected NetworkError, logged r s)
  | Some resp =>
      if ok resp then
        match json resp with
        | Some v => (Resolved v, logged r s)
        | None => (Rejected SyntaxError, logged r s)
        end
      else (Resolved (http_error resp), logged r s)
  end.
Proof.
  unfold Rev0.request. unfold_monad. cbn zeta.
  destruct (fetch env _) as [resp|]; [|reflexivity].
  destruct (ok resp); [|reflexivity].
  now destruct (json resp).
Qed.

Ltac step_request0 :=
  rewrite Rev0_request_eq; cbn zeta;
  repeat match goal with
         | H : fetch ?env ?r = _ |- context [fetch ?env ?r'] =>
             change (fetch env r') with (fetch env r); rewrite H
         | H : ok ?resp = _ |- context [ok ?resp] => rewrite H
         | H : json ?resp = _ |- context [json ?resp] => rewrite H
         end.

(** X15.  In the first revision every failed [authenticate] hands the
    error to the caller and keeps it: an answer outside 2xx gives
    [{error: "<status> <statusText>"}], a 2xx body with an [error] key gives
    that body, and in both cases [currentError] holds the value returned and
    there is no current user.  A 2xx body with a [token] and no [error]
    becomes the current user; one with neither resolves to [null]. *)
Theorem Rev0_authenticate_answered (document_cookie : string) (env : Env)
    (s : State) :
  let r := Rev0.sent_authenticate document_cookie s in
  let result := Rev0.authenticate document_cookie env s in
  (forall resp,
      answers_not_ok env r resp ->
      fst result = Resolved (http_error resp)
      /\ currentError (this (snd result)) = http_error resp
      /\ currentUser (this (snd result)) = JNull)
  /\ (forall b,
         answers_ok env r b -> js_in "error" b = inr true ->
         fst result = Resolved b
         /\ currentError (this (snd result)) = b
         /\ currentUser (this (snd result)) = JNull)
  /\ (forall b has_token,
         answers_ok env r b -> js_in "error" b = inr false ->
         js_in "token" b = inr has_token ->
         fst result = Resolved (if has_token then b else JNull)
         /\ currentError (this (snd result)) = JNull
         /\ currentUser (this (snd result)) = (if has_token then b else JNull)).
Proof.
  cbn zeta. unfold Rev0.sent_authenticate, answers_ok, answers_not_ok.
  split; [|split].
  - intros resp [Hf Hok].
    unfold Rev0.authenticate; unfold_monad; step_request0.
    repeat split.
  - intros b (resp & Hf & Hok & Hj) Hin.
    unfold Rev0.authenticate; unfold_monad; step_request0.
    rewrite Hin. repeat split.
  - intros b has_token (resp & Hf & Hok & Hj) Hin Ht.
    unfold Rev0.authenticate; unfold_monad; step_request0.
    rewrite Hin. cbn. rewrite Ht. destruct has_token; repeat split.
Qed.

Lemma Rev0_authenticate_answered_witness :
  fst (Rev0.authenticate (Rev0.cookie_text three_cookies) login_refused
                         (fresh "https://x/y/" ∅))
  = Resolved (JObj [("error", JStr "unknown user")])
  /\ currentError (this (snd (Rev0.authenticate (Rev0.cookie_text three_cookies)
                                login_refused (fresh "https://x/y/" ∅))))
     = JObj [("error", JStr "unknown user")]
  /\ currentUser (this (snd (Rev0.authenticate (Rev0.cookie_text three_cookies)
                               login_refused (fresh "https://x/y/" ∅))))
     = JNull.
Proof.
  destruct (Rev0_authenticate_answered (Rev0.cookie_text three_cookies)
              login_refused (fresh "https://x/y/" ∅)) as (_ & H & _).
  apply (H (JObj [("error", JStr "unknown user")]));
    [eexists; repeat split; reflexivity | reflexivity].
Defined.

(** X16.  When [document.cookie] is the text of well-formed cookies with
    distinct names, one of them [user-token], the first revision's
    [authenticate] makes one GET whose only credential is [key=] followed by
    the encoded value of that cookie. *)
Theorem Rev0_authenticate_key (cookies : list (string * string)) (v : string)
    (env : Env) (s : State) :
  Rev0.well_formed cookies ->
  List.NoDup (map fst cookies) ->
  In ("user-token", v) cookies ->
  fetched (snd (Rev0.authenticate (Rev0.cookie_text cookies) env s))
  = (fetched s ++
     [{| url := (serverEndpoint (this s) +:+ "/" +:+ "authenticate")
                +:+ "?" +:+ "key=" +:+ Uri.encodeURIComponent v;
         method := GET;
         headers := GET_headers;
         body := None |}])%list.
Proof.
  intros Hwf Hnd Hin.
  assert (Hkey : Rev0.getCookie (Rev0.cookie_text cookies) "user-token" = v).
  { destruct (in_split_unique cookies "user-token" v Hnd Hin)
      as (pre & post & -> & Hpre & Hpost).
    unfold Rev0.well_formed in Hwf.
    apply List.Forall_app in Hwf. destruct Hwf as [Wpre Wrest].
    apply List.Forall_cons_iff in Wrest.
    destruct Wrest as [(_ & He & Hv) Wpost]. cbn [fst snd] in *.
    now apply getCookie_at. }
  unfold Rev0.authenticate. unfold_monad. rewrite Rev0_request_eq. cbn zeta.
  rewrite Hkey.
  destruct (fetch env _) as [resp|]; [|reflexivity].
  destruct (ok resp); [|reflexivity].
  destruct (json resp) as [b|]; [|reflexivity].
  destruct (js_in "error" b) as [e|[|]]; try reflexivity.
  destruct (js_in "token" b) as [e|[|]]; reflexivity.
Qed.

Lemma Rev0_authenticate_key_witness :
  fetched (snd (Rev0.authenticate (Rev0.cookie_text three_cookies) token_answer
                                  (fresh "https://x/y/" ∅)))
  = [{| url := "https://x/y/authenticate?key=k%3D1";
        method := GET;
        headers := GET_headers;
        body := None |}].
Proof.
  apply (Rev0_authenticate_key three_cookies "k=1" token_answer
           (fresh "https://x/y/" ∅)).
  - repeat constructor.
  - repeat constructor; cbn; intuition discriminate.
  - cbn. tauto.
Defined.

(** ** The guard of [addAnnotation], in general *)

(** X17.  [addAnnotation] is refused exactly when
    [this.#currentUser && this.#currentUser.canUpdate] is falsy: a falsy
    current user ([null], or an [undefined] left by a login without data),
    or a user whose [canUpdate] is missing, [false], [null], [0] or the
    empty string.  Refused, it resolves to [{error: "user cannot add annotation"}],
    stores it and sends nothing; otherwise it sends its request. *)
Theorem addAnnotation_guard (a : UserAnnotation) (env : Env) (s : State) :
  (truthy (guard_value s) = false ->
   addAnnotation a env s
   = (Resolved (ErrorResult "user cannot add annotation"),
      with_currentError (ErrorResult "user cannot add annotation") s))
  /\ (truthy (guard_value s) = true ->
      fetched (after (AddAnnotation a) env s)
      = (fetched s ++ [sent (AddAnnotation a) env s])%list)
  /\ (truthy (guard_value s) = false <->
      truthy (currentUser (this s)) = false
      \/ exists v, js_get (currentUser (this s)) "canUpdate" = inr v
                   /\ truthy v = false).
Proof.
  split; [|split].
  - intros H. now rewrite addAnnotation_eq, H.
  - intros H. now rewrite addAnnotation_log, H.
  - unfold guard_value. cbn zeta.
    destruct (truthy (currentUser (this s))) eqn:T.
    + destruct (truthy_get _ "canUpdate" T) as [w Hw]. rewrite Hw. split.
      * intros H. right. now exists w.
      * intros [E|(v & Hv & Hf)]; [discriminate|]. congruence.
    + rewrite T. split; [now left | reflexivity].
Qed.

Lemma addAnnotation_guard_witness :
  addAnnotation note add_ok (logged_in nameless)
  = (Resolved (ErrorResult "user cannot add annotation"),
     with_currentError (ErrorResult "user cannot add annotation")
                       (logged_in nameless))
  /\ fetched (after (AddAnnotation note) add_ok (logged_in A_user))
     = [sent (AddAnnotation note) add_ok (logged_in A_user)]
  /\ truthy (guard_value (logged_in nameless)) = false.
Proof.
  destruct (addAnnotation_guard note add_ok (logged_in nameless)) as (H1 & _ & H3).
  destruct (addAnnotation_guard note add_ok (logged_in A_user)) as (_ & H2 & _).
  split; [apply H1; reflexivity|].
  split; [apply H2; reflexivity|].
  apply H3. right. exists JUndefined. split; reflexivity.
Defined.

(** ** The shape of the current error *)

Lemma call_error_shaped (c : Call) (env : Env) (s : State) :
  error_shaped (currentError (this s)) ->
  error_shaped (currentError (this (after c env s))).
Proof.
  intros Hs. unfold error_shaped in *.
  destruct c; open_call; try destruct (truthy (guard_value s));
    try rewrite request_eq; cbn zeta;
    try (destruct (fetch env _) as [resp|];
         [destruct (ok resp);
          [destruct (json resp) as [b|];
           [match goal with
            | |- context [js_in ?k b] =>
                destruct (js_in k b) as [?|[|]] eqn:Hin
            end|]|]|]);
    cbn;
    try match goal with
        | Hin : js_in "error" ?v = inr false
          |- context [js_get ?v "session"] =>
            destruct (js_in_get "error" "session" v false Hin) as [session Hg];
            destruct (js_in_get "error" "data" v false Hin) as [data Hd];
            rewrite Hg, Hd; cbn
        end;
    try tauto; try (now left); try (now right).
Qed.

(** X18.  In every run from a newly constructed service [currentError] is
    either [null] or a value with an [error] key: the service never stores
    anything else there. *)
Theorem currentError_shape (serverEndpoint : string)
    (cookies : gmap string Cookie) (cs : list (Call * Env)) :
  let e := currentError (this (run cs (fresh serverEndpoint cookies))) in
  e = JNull \/ js_in "error" e = inr true.
Proof.
  cbn zeta.
  induction cs as [|[c env] cs IH] using rev_ind; [now left|].
  rewrite run_snoc. now apply call_error_shaped.
Qed.

(** ** Logins that leave no user *)

Lemma refused_without_user (a : UserAnnotation) (env : Env) (s : State) :
  truthy (currentUser (this s)) = false ->
  addAnnotation a env s
  = (Resolved (ErrorResult "user cannot add annotation"),
     with_currentError (ErrorResult "user cannot add annotation") s).
Proof.
  intros T. rewrite addAnnotation_eq. unfold guard_value. cbn zeta.
  now rewrite T, T.
Qed.

(** X19.  A 2xx answer to [authenticate] without an [error] key counts as
    a success even when it has no [data]: the call resolves to [undefined],
    [currentUser] is [undefined] and [currentError] is [null], and an
    [addAnnotation] made next is refused without a request. *)
Theorem authenticate_without_data (env env' : Env) (s : State) (b : jsval)
    (a : UserAnnotation) :
  answers_ok env (sent Authenticate env s) b ->
  js_in "error" b = inr false ->
  js_get b "data" = inr JUndefined ->
  fst (authenticate env s) = Resolved JUndefined
  /\ currentUser (this (after Authenticate env s)) = JUndefined
  /\ currentError (this (after Authenticate env s)) = JNull
  /\ fst (addAnnotation a env' (after Authenticate env s))
     = Resolved (ErrorResult "user cannot add annotation")
  /\ fetched (after (AddAnnotation a) env' (after Authenticate env s))
     = fetched (after Authenticate env s).
Proof.
  intros Ha Hin Hd.
  destruct (js_in_get "error" "session" b false Hin) as [session Hs].
  unfold after, call.
  rewrite (authenticate_success env s b session JUndefined Ha Hin Hs Hd).
  cbn [fst snd]. rewrite refused_without_user by reflexivity.
  repeat split.
Qed.

Lemma authenticate_without_data_witness :
  fst (authenticate login_empty with_session) = Resolved JUndefined
  /\ currentUser (this (after Authenticate login_empty with_session)) = JUndefined
  /\ currentError (this (after Authenticate login_empty with_session)) = JNull
  /\ fst (addAnnotation note add_ok (after Authenticate login_empty with_session))
     = Resolved (ErrorResult "user cannot add annotation")
  /\ fetched (after (AddAnnotation note) add_ok
                    (after Authenticate login_empty with_session))
     = fetched (after Authenticate login_empty with_session).
Proof.
  apply (authenticate_without_data login_empty add_ok with_session (JObj []) note).
  - eexists. repeat split; reflexivity.
  - reflexivity.
  - reflexivity.
Defined.

(** X20.  After [unauthenticate] an [addAnnotation] is refused without a
    request, whatever the server answered to the logout and even when the
    logout itself rejected: the client has forgotten the user before it
    asks the server. *)
Theorem write_after_logout (env env' : Env) (s : State) (a : UserAnnotation) :
  fst (addAnnotation a env' (after Unauthenticate env s))
  = Resolved (ErrorResult "user cannot add annotation")
  /\ fetched (after (AddAnnotation a) env' (after Unauthenticate env s))
     = fetched (after Unauthenticate env s).
Proof.
  assert (T : truthy (currentUser (this (after Unauthenticate env s))) = false)
    by now rewrite unauthenticate_currentUser.
  split.
  - now rewrite refused_without_user.
  - unfold after at 1. unfold call. now rewrite refused_without_user.
Qed.
